(** * ttseries: the sorted-set backed time-series engine

    A shallow embedding of [RedisSampleTimeSeries] (ttseries/ts/sample.py)
    over a sequential model of the Redis commands it issues.

    - A sorted set is the list of its (score, member) entries in rank
      order: ascending score, ties broken by the byte order of the member,
      each member stored once.
    - The remote store is a finite map from keys to sorted sets together
      with the log of the commands sent to it; a key whose set becomes
      empty is removed, as Redis does.
    - Engine methods run in an error monad over that store: a Python
      exception is [Raise], and whatever was written before it stays.
    - Timestamps are modelled as integers; only their order matters to
      the engine.  The process-local lock is not modelled: every run here
      is a single sequential caller. *)

From Stdlib Require Import ZArith Lia Sorted Permutation.
From stdpp Require Import base option list sorting gmap strings.

Set Warnings "-register-all".

Local Open Scope Z_scope.

(** ** Python values and exceptions *)

Inductive pyobj : Type :=
  | PyNone
  | PyInt (z : Z)
  | PyStr (s : string)
  | PyTuple (items : list pyobj)
  | PyList (items : list pyobj).

Inductive exn : Type :=
  | TypeError
  | IndexError
  | UnboundLocalError
  | ZeroDivisionError
  | ResponseError
  | SerializerError
  | KeyValidationError
  | DataValidationError.

Inductive result (A : Type) : Type :=
  | Ok (a : A)
  | Raise (e : exn).
Arguments Ok {A} a.
Arguments Raise {A} e.

(** The codec: [dumps] gives the member bytes, [loads] fails on bytes it
    cannot decode. *)
Record Serializer : Type := {
  dumps : pyobj → string;
  loads : string → option pyobj
}.

(** ** Sorted sets *)

Definition entry : Type := Z * string.
Definition zset : Type := list entry.

Inductive bound : Type :=
  | NegInf
  | Score (z : Z)
  | PosInf.

Definition ge_min (lo : bound) (s : Z) : bool :=
  match lo with
  | NegInf => true
  | Score z => z <=? s
  | PosInf => false
  end.

Definition le_max (hi : bound) (s : Z) : bool :=
  match hi with
  | NegInf => false
  | Score z => s <=? z
  | PosInf => true
  end.

Definition in_range (lo hi : bound) (e : entry) : bool :=
  ge_min lo e.1 && le_max hi e.1.

Definition entry_ltb (a b : entry) : bool :=
  (a.1 <? b.1) || ((a.1 =? b.1) && String.ltb a.2 b.2).

Definition has_member (m : string) (e : entry) : bool := String.eqb e.2 m.

Definition is_member (m : string) (z : zset) : bool :=
  existsb (has_member m) z.

Fixpoint zinsert (e : entry) (z : zset) : zset :=
  match z with
  | [] => [e]
  | x :: rest => if entry_ltb e x then e :: z else x :: zinsert e rest
  end.

Definition zdiscard (m : string) (z : zset) : zset :=
  List.filter (λ e, negb (has_member m e)) z.

(** ZADD of one pair: a member already stored is moved to the new score. *)
Definition zadd1 (z : zset) (e : entry) : zset :=
  zinsert e (zdiscard e.2 z).

Definition zadd_all (z : zset) (pairs : list entry) : zset :=
  fold_left zadd1 pairs z.

Fixpoint zadd_new (z : zset) (pairs : list entry) : Z :=
  match pairs with
  | [] => 0
  | e :: rest =>
      (if is_member e.2 z then 0 else 1) + zadd_new (zadd1 z e) rest
  end.

(** Rank ranges as Redis normalises them: a negative index counts from
    the end, the range is clamped to the set.  The result is the number
    of leading entries kept and the number removed after them. *)
Definition rank_window (len start stop : Z) : nat * nat :=
  let start := if start <? 0 then start + len else start in
  let stop := if stop <? 0 then stop + len else stop in
  let start := Z.max 0 start in
  let stop := Z.min stop (len - 1) in
  if (stop <? start) then (0%nat, 0%nat)
  else (Z.to_nat start, Z.to_nat (stop - start + 1)).

Definition remrangebyrank (z : zset) (start stop : Z) : zset :=
  let w := rank_window (Z.of_nat (length z)) start stop in
  take w.1 z ++ drop (w.1 + w.2)%nat z.

Definition remrangebyscore (z : zset) (lo hi : bound) : zset :=
  List.filter (λ e, negb (in_range lo hi e)) z.

Definition rangebyscore (z : zset) (lo hi : bound) : zset :=
  List.filter (in_range lo hi) z.

(** LIMIT offset count: a negative count means no limit. *)
Definition limit (start num : Z) (z : zset) : zset :=
  if start <? 0 then []
  else
    let rest := drop (Z.to_nat start) z in
    if num <? 0 then rest else take (Z.to_nat num) rest.

Fixpoint rank_of (m : string) (z : zset) : option Z :=
  match z with
  | [] => None
  | e :: rest =>
      if has_member m e then Some 0
      else match rank_of m rest with
           | Some r => Some (r + 1)
           | None => None
           end
  end.

(** ** The remote store *)

Inductive command : Type :=
  | ZADD (key : string) (pairs : list entry)
  | ZREMRANGEBYRANK (key : string) (start stop : Z)
  | ZREMRANGEBYSCORE (key : string) (lo hi : bound)
  | DEL (keys : list string)
  | ZCARD (key : string)
  | ZCOUNT (key : string) (lo hi : bound)
  | ZRANK (key : string) (member : string)
  | ZRANGEBYSCORE (key : string) (lo hi : bound) (lim : option (Z * Z))
  | ZREVRANGEBYSCORE (key : string) (hi lo : bound) (lim : option (Z * Z))
  | ZSCAN (key : string).

Definition is_write (c : command) : bool :=
  match c with
  | ZADD _ _ | ZREMRANGEBYRANK _ _ _ | ZREMRANGEBYSCORE _ _ _ | DEL _ => true
  | _ => false
  end.

Record redis : Type := {
  db : gmap string zset;
  calls : list command
}.

Definition keyset (d : gmap string zset) (key : string) : zset :=
  default [] (d !! key).

(** The series stored under [key]; a missing key is the empty series. *)
Definition zs (r : redis) (key : string) : zset := keyset (db r) key.

Definition put (d : gmap string zset) (key : string) (z : zset)
  : gmap string zset :=
  match z with
  | [] => delete key d
  | _ => <[key := z]> d
  end.

Definition io (A : Type) : Type := redis → result A * redis.

Definition ret {A} (a : A) : io A := λ r, (Ok a, r).
Definition throw {A} (e : exn) : io A := λ r, (Raise e, r).
Definition bind {A B} (m : io A) (k : A → io B) : io B :=
  λ r, match m r with
       | (Ok a, r') => k a r'
       | (Raise e, r') => (Raise e, r')
       end.

#[global] Instance io_ret : MRet io := @ret.
#[global] Instance io_bind : MBind io := λ A B k m, bind m k.

Definition lift {A} (x : result A) : io A := λ r, (x, r).

(** A command is logged, then applied. *)
Definition send {A} (c : command) (f : gmap string zset → A * gmap string zset)
  : io A :=
  λ r, let '(a, d) := f (db r) in
       (Ok a, {| db := d; calls := calls r ++ [c] |}).

Definition query {A} (c : command) (f : gmap string zset → A) : io A :=
  send c (λ d, (f d, d)).

Module client.

Definition zadd (name : string) (pairs : list entry) : io Z :=
  match pairs with
  | [] => throw ResponseError
  | _ =>
      send (ZADD name pairs)
        (λ d, let z := keyset d name in
              (zadd_new z pairs, put d name (zadd_all z pairs)))
  end.

Definition zremrangebyrank (name : string) (min max : Z) : io Z :=
  send (ZREMRANGEBYRANK name min max)
    (λ d, let z := keyset d name in
          let z' := remrangebyrank z min max in
          (Z.of_nat (length z) - Z.of_nat (length z'), put d name z')).

Definition zremrangebyscore (name : string) (min max : bound) : io Z :=
  send (ZREMRANGEBYSCORE name min max)
    (λ d, let z := keyset d name in
          let z' := remrangebyscore z min max in
          (Z.of_nat (length z) - Z.of_nat (length z'), put d name z')).

Definition delete (names : list string) : io Z :=
  send (DEL names)
    (λ d, (Z.of_nat (length (List.filter (λ k, bool_decide (is_Some (d !! k)))
                                         (remove_dups names))),
           foldr base.delete d names)).

Definition zcard (name : string) : io Z :=
  query (ZCARD name) (λ d, Z.of_nat (length (keyset d name))).

Definition zcount (name : string) (min max : bound) : io Z :=
  query (ZCOUNT name min max)
    (λ d, Z.of_nat (length (rangebyscore (keyset d name) min max))).

Definition zrank (name : string) (value : string) : io (option Z) :=
  query (ZRANK name value) (λ d, rank_of value (keyset d name)).

(** Without scores and without LIMIT: the members in range. *)
Definition zrangebyscore (name : string) (min max : bound)
  : io (list string) :=
  query (ZRANGEBYSCORE name min max None)
    (λ d, (rangebyscore (keyset d name) min max).*2).

(** [withscores=True, start=, num=]: (member, score) pairs. *)
Definition zrangebyscore_withscores (name : string) (min max : bound)
    (start num : Z) : io (list (string * Z)) :=
  query (ZRANGEBYSCORE name min max (Some (start, num)))
    (λ d, (λ e : entry, (e.2, e.1)) <$>
          limit start num (rangebyscore (keyset d name) min max)).

Definition zrevrangebyscore_withscores (name : string) (min max : bound)
    (start num : Z) : io (list (string * Z)) :=
  query (ZREVRANGEBYSCORE name max min (Some (start, num)))
    (λ d, (λ e : entry, (e.2, e.1)) <$>
          limit start num (rev (rangebyscore (keyset d name) min max))).

(** A full cursor scan of one sorted set. *)
Definition zscan_iter (name : string) (count : option Z)
  : io (list (string * Z)) :=
  query (ZSCAN name)
    (λ d, (λ e : entry, (e.2, e.1)) <$> keyset d name).

End client.

(** ** What the engine inherits from its base class *)

Record engine : Type := {
  serializer : Serializer;
  max_length : Z;
  use_numpy : bool;
  (** Modelled from the spec: [_add_many_validate], of the base class,
      which is not part of the sources at hand.  It checks and normalises
      the batch before any remote call, so it is a function of the batch
      alone. *)
  add_many_validate : string → list (Z * pyobj) → result (list (Z * pyobj))
}.

Module RedisTSBase.

(** Modelled from the spec: the suffixes the hash-backed sibling reserves
    for its counter and its hash map. *)
Definition reserved_suffixes : list string := [":ID"; ":HASH"]%string.

Fixpoint has_suffix (suffix s : string) : bool :=
  String.eqb s suffix ||
  match s with
  | EmptyString => false
  | String _ rest => has_suffix suffix rest
  end.

(** Modelled from the spec: [validate_key] of the base class.  A name
    passes when it is non-empty and does not end in a reserved suffix. *)
Definition validate_key (name : string) : io unit :=
  if String.eqb name "" || existsb (λ suf, has_suffix suf name) reserved_suffixes
  then throw KeyValidationError
  else mret tt.

(** Modelled from the spec: [length], the number of elements of a series. *)
Definition length (name : string) : io Z := client.zcard name.

(** Modelled from the spec: [count], the number of elements whose score
    lies in the inclusive range. *)
Definition count (name : string) (start_timestamp end_timestamp : bound)
  : io Z :=
  client.zcount name start_timestamp end_timestamp.

(** Modelled from the spec: [exist_timestamp], whether some element has
    the given timestamp as its score. *)
Definition exist_timestamp (name : string) (timestamp : Z) : io bool :=
  n ← client.zcount name (Score timestamp) (Score timestamp);
  mret (0 <? n).

(** Modelled from the spec: [transaction_pipe].  The staged commands of
    one chunk are applied as a unit; with a single sequential caller the
    watched key is never touched in between and the transaction commits. *)
Definition transaction_pipe {A} (pipe_func : io A) (watch_keys : string)
  : io A := pipe_func.

End RedisTSBase.

Module utils.

(** Modelled from the spec: [ttseries.utils.chunks], which cuts a sequence
    into consecutive pieces of [n] items, the last one possibly shorter. *)
Fixpoint chunks_fuel {A} (fuel : nat) (l : list A) (n : nat) : list (list A) :=
  match fuel, l with
  | O, _ | _, [] => []
  | S fuel', _ => take n l :: chunks_fuel fuel' (drop n l) n
  end.

Definition chunks {A} (l : list A) (n : Z) : list (list A) :=
  if n <=? 0 then [] else chunks_fuel (List.length l) l (Z.to_nat n).

End utils.

(** ** Generators

    A generator is run one resumption at a time: a resumption either
    yields a value and a frame to resume from, or returns ([None]), or
    raises.  A consumer that iterates with a [for] loop resumes with
    Python's [None] every time. *)

Inductive local (A : Type) : Type :=
  | Unbound
  | Bound (a : A).
Arguments Unbound {A}.
Arguments Bound {A} a.

Inductive ending : Type :=
  | Exhausted
  | Failed (e : exn)
  | Suspended.

Definition page : Type := list (Z * pyobj).

Definition page_obj (p : page) : pyobj :=
  PyList ((λ x : Z * pyobj, PyTuple [PyInt x.1; x.2]) <$> p).

(** [o[-1]] *)
Definition subscript_last (o : pyobj) : result pyobj :=
  match o with
  | PyList items | PyTuple items =>
      match last items with
      | Some x => Ok x
      | None => Raise IndexError
      end
  | PyStr s =>
      match last (String.list_ascii_of_string s) with
      | Some c => Ok (PyStr (String c EmptyString))
      | None => Raise IndexError
      end
  | PyNone | PyInt _ => Raise TypeError
  end.

(** [index + 1] for a local that may be unassigned or hold [None]. *)
Definition index_plus_one (index : local (option Z)) : result Z :=
  match index with
  | Unbound => Raise UnboundLocalError
  | Bound None => Raise TypeError
  | Bound (Some k) => Ok (k + 1)
  end.

Definition as_min (t : option Z) : bound :=
  match t with None => NegInf | Some z => Score z end.

Definition as_max (t : option Z) : bound :=
  match t with None => PosInf | Some z => Score z end.

(** Python truthiness of an optional timestamp: [None] and [0] are false. *)
Definition truthy (t : option Z) : bool :=
  match t with
  | None => false
  | Some z => negb (z =? 0)
  end.

Fixpoint for_each {A} (items : list A) (body : A → io unit) : io unit :=
  match items with
  | [] => mret tt
  | x :: rest => body x;; for_each rest body
  end.

(** ** The engine: [RedisSampleTimeSeries] *)

Module RedisSampleTimeSeries.

(** [add]: the result is what ZADD returns, or Python's [None] when the
    timestamp is already there. *)
Definition add (self : engine) (name : string) (timestamp : Z) (data : pyobj)
  : io (option Z) :=
  let data := dumps (serializer self) data in
  found ← RedisTSBase.exist_timestamp name timestamp;
  if negb found then
    len ← RedisTSBase.length name;
    (if len =? max_length self
     then client.zremrangebyrank name 0 0;; mret tt
     else mret tt);;
    n ← client.zadd name [(timestamp, data)];
    mret (Some n)
  else mret None.

Definition add_many (self : engine) (name : string)
    (timestamp_pairs : list (Z * pyobj)) (chunks_size : Z) : io unit :=
  RedisTSBase.validate_key name;;
  timestamp_pairs ← lift (add_many_validate self name timestamp_pairs);
  for_each (utils.chunks timestamp_pairs chunks_size)
    (λ item,
       let filter_data :=
         (λ p : Z * pyobj, (p.1, dumps (serializer self) p.2)) <$> item in
       RedisTSBase.transaction_pipe (client.zadd name filter_data) name;;
       mret tt).

(** [get]: Python's [None] when nothing has that score, and in numpy
    mode. *)
Definition get (self : engine) (name : string) (timestamp : Z) : io pyobj :=
  result ← client.zrangebyscore name (Score timestamp) (Score timestamp);
  match result with
  | [] => mret PyNone
  | first :: _ =>
      if use_numpy self then mret PyNone
      else match loads (serializer self) first with
           | Some v => mret v
           | None => throw SerializerError
           end
  end.

Definition delete (self : engine) (name : string)
    (start_timestamp end_timestamp : option Z) : io Z :=
  if truthy start_timestamp || truthy end_timestamp then
    let start_timestamp := as_min start_timestamp in
    let end_timestamp := as_max end_timestamp in
    client.zremrangebyscore name start_timestamp end_timestamp
  else client.delete [name].

Definition remove_many (self : engine) (names : list string)
    (start_timestamp end_timestamp : option Z) : io unit :=
  let chunks_data := utils.chunks names 10000 in
  if truthy start_timestamp || truthy end_timestamp then
    for_each chunks_data
      (λ chunk_keys,
         for_each chunk_keys
           (λ name,
              delete self name start_timestamp end_timestamp;; mret tt))
  else
    for_each chunks_data
      (λ chunk_keys, client.delete chunk_keys;; mret tt).

Definition trim (self : engine) (name : string) (length : Z) : io unit :=
  current_length ← RedisTSBase.length name;
  if (length <? current_length) && (0 <? length) then
    let begin := 0 in
    let end_ := length - 1 in
    client.zremrangebyrank name begin end_;; mret tt
  else if current_length <=? length then
    delete self name None None;; mret tt
  else mret tt.

(** *** [get_slice] *)

Inductive slice_frame : Type :=
  | SliceStart
  | SlicePaged (rest : nat) (i : Z) (index : local (option Z))
  | SliceSingle.

Definition zrange_func (asc : bool) (name : string) (lo hi : bound)
    (start num : Z) : io (list (string * Z)) :=
  if asc then client.zrangebyscore_withscores name lo hi start num
  else client.zrevrangebyscore_withscores name lo hi start num.

Fixpoint decode_page (self : engine) (results : list (string * Z))
  : result page :=
  match results with
  | [] => Ok []
  | (data, timestamp) :: rest =>
      match loads (serializer self) data with
      | None => Raise SerializerError
      | Some v =>
          match decode_page self rest with
          | Ok p => Ok ((timestamp, v) :: p)
          | Raise e => Raise e
          end
      end
  end.

(** The body of [for i in range(split_size)] from pass [i] on, with [rest]
    passes to go, up to the next [yield]. *)
Fixpoint paged_loop (self : engine) (name : string) (lo hi : bound)
    (asc : bool) (chunks_size : Z) (rest : nat) (i : Z)
    (index : local (option Z)) : io (option (page * slice_frame)) :=
  match rest with
  | O => mret None
  | S rest' =>
      start ← (if i =? 0 then mret 0 else lift (index_plus_one index));
      results ← zrange_func asc name lo hi start chunks_size;
      if use_numpy self then
        paged_loop self name lo hi asc chunks_size rest' (i + 1) index
      else
        p ← lift (decode_page self results);
        mret (Some (p, SlicePaged rest' i index))
  end.

(** One resumption of the generator; [sent] is the value of the [yield]
    expression the generator is suspended at.  The test on [limit] in the
    source guards a [pass], so [limit] has no effect.  [int(total /
    chunks_size)] is the quotient truncated towards zero. *)
Definition get_slice (self : engine) (name : string)
    (start_timestamp end_timestamp limit : option Z) (asc : bool)
    (chunks_size : Z) (frame : slice_frame) (sent : pyobj)
  : io (option (page * slice_frame)) :=
  let start_timestamp := as_min start_timestamp in
  let end_timestamp := as_max end_timestamp in
  match frame with
  | SliceStart =>
      total ← RedisTSBase.count name start_timestamp end_timestamp;
      if chunks_size <? total then
        if chunks_size =? 0 then throw ZeroDivisionError
        else
          let split_size := Z.quot total chunks_size in
          paged_loop self name start_timestamp end_timestamp asc chunks_size
            (Z.to_nat split_size) 0 Unbound
      else
        results ← zrange_func asc name start_timestamp end_timestamp 0 (-1);
        if use_numpy self then mret None
        else
          p ← lift (decode_page self results);
          mret (Some (p, SliceSingle))
  | SlicePaged rest i _ =>
      let yield_data := sent in
      item ← lift (subscript_last yield_data);
      let index_data := dumps (serializer self) item in
      index ← client.zrank name index_data;
      paged_loop self name start_timestamp end_timestamp asc chunks_size
        rest (i + 1) (Bound index)
  | SliceSingle => mret None
  end.

(** Iterating the generator as a [for] loop does: every resumption sends
    [None]. *)
Fixpoint iterate (fuel : nat)
    (resume : slice_frame → pyobj → io (option (page * slice_frame)))
    (frame : slice_frame) (r : redis) : (list page * ending) * redis :=
  match fuel with
  | O => (([], Suspended), r)
  | S fuel' =>
      match resume frame PyNone r with
      | (Raise e, r') => (([], Failed e), r')
      | (Ok None, r') => (([], Exhausted), r')
      | (Ok (Some (p, frame')), r') =>
          let '((ps, e), r'') := iterate fuel' resume frame' r' in
          ((p :: ps, e), r'')
      end
  end.

(** A consumer that hands every page back through [send]. *)
Fixpoint iterate_sending (fuel : nat)
    (resume : slice_frame → pyobj → io (option (page * slice_frame)))
    (frame : slice_frame) (sent : pyobj) (r : redis)
  : (list page * ending) * redis :=
  match fuel with
  | O => (([], Suspended), r)
  | S fuel' =>
      match resume frame sent r with
      | (Raise e, r') => (([], Failed e), r')
      | (Ok None, r') => (([], Exhausted), r')
      | (Ok (Some (p, frame')), r') =>
          let '((ps, e), r'') :=
            iterate_sending fuel' resume frame' (page_obj p) r' in
          ((p :: ps, e), r'')
      end
  end.

(** *** [iter] *)

Fixpoint iter_items (self : engine) (items : list (string * Z))
  : list (Z * pyobj) * ending :=
  match items with
  | [] => ([], Exhausted)
  | item :: rest =>
      if use_numpy self then iter_items self rest
      else
        match loads (serializer self) item.1 with
        | None => ([], Failed SerializerError)
        | Some v =>
            let '(ys, e) := iter_items self rest in ((item.2, v) :: ys, e)
        end
  end.

(** The whole run of the generator: what it yields and how it ends. *)
Definition iter (self : engine) (name : string) (count : option Z) (r : redis)
  : (list (Z * pyobj) * ending) * redis :=
  if use_numpy self then
    match client.zscan_iter name count r with
    | (Ok items, r') => (iter_items self items, r')
    | (Raise e, r') => (([], Failed e), r')
    end
  else
    (([], Exhausted), r).

End RedisSampleTimeSeries.

(** ** Properties of sorted sets used in the statements *)

(** Rank order: scores never decrease along the list. *)
Definition ranked (z : zset) : Prop :=
  StronglySorted (λ a b : entry, a.1 ≤ b.1) z.

Definition scores (z : zset) : list Z := z.*1.
Definition members (z : zset) : list string := z.*2.

(** Whether some element has score [t]. *)
Definition has_score (t : Z) (z : zset) : bool :=
  existsb (λ e : entry, e.1 =? t) z.

(** ** Fixtures for the examples *)

(** A codec for text payloads: a string is stored as its own bytes. *)
Definition text_serializer : Serializer :=
  {| dumps := λ o, match o with PyStr s => s | _ => "?"%string end;
     loads := λ b, Some (PyStr b) |}.

Definition text_engine (n : Z) (numpy : bool) : engine :=
  {| serializer := text_serializer;
     max_length := n;
     use_numpy := numpy;
     add_many_validate := λ _ pairs, Ok pairs |}.

Definition empty_store : redis := {| db := ∅; calls := [] |}.

Definition store_of (name : string) (z : zset) : redis :=
  {| db := put ∅ name z; calls := [] |}.

Definition abc : zset := [(1, "a"); (2, "b"); (3, "c")]%string.

(** ** The effect of [add] on the sorted set of its series *)

Definition evicted (self : engine) (z : zset) : zset :=
  if Z.of_nat (length z) =? max_length self then remrangebyrank z 0 0 else z.

Definition add_step (self : engine) (z : zset) (timestamp : Z) (data : pyobj)
  : zset :=
  if has_score timestamp z then z
  else zadd1 (evicted self z) (timestamp, dumps (serializer self) data).

Definition add_calls (self : engine) (name : string) (z : zset)
    (timestamp : Z) (data : pyobj) : list command :=
  ZCOUNT name (Score timestamp) (Score timestamp) ::
  if has_score timestamp z then []
  else
    ZCARD name ::
    (if Z.of_nat (length z) =? max_length self
     then [ZREMRANGEBYRANK name 0 0] else []) ++
    [ZADD name [(timestamp, dumps (serializer self) data)]].

(** What [add_many] does with one chunk. *)
Definition add_many_chunk_body (self : engine) (name : string)
    (item : list (Z * pyobj)) : io unit :=
  RedisTSBase.transaction_pipe
    (client.zadd name
       ((λ p : Z * pyobj, (p.1, dumps (serializer self) p.2)) <$> item))
    name;;
  mret tt.

(** The (score, member) pairs [add_many] sends for a batch. *)
Definition encode (self : engine) (batch : list (Z * pyobj)) : list entry :=
  (λ p : Z * pyobj, (p.1, dumps (serializer self) p.2)) <$> batch.

(** The (member, score) pairs of the first window of a range scan. *)
Definition first_window (asc : bool) (chunks_size : Z) (matching : zset)
  : list (string * Z) :=
  (λ e : entry, (e.2, e.1)) <$>
  limit 0 chunks_size (if asc then matching else rev matching).

(** A caller adding items one at a time, in order. *)
Definition add_one (self : engine) (name : string) (item : Z * pyobj)
  : io unit :=
  RedisSampleTimeSeries.add self name item.1 item.2;; mret tt.

Definition add_each (self : engine) (name : string)
    (items : list (Z * pyobj)) : io unit :=
  for_each items (add_one self name).

Definition add_steps (self : engine) (z : zset) (items : list (Z * pyobj))
  : zset :=
  fold_left (λ z item, add_step self z item.1 item.2) items z.

(** * Lemmas *)

Section store_facts.

Implicit Types (d : gmap string zset) (z : zset) (k : string).

Lemma keyset_put d k z : keyset (put d k z) k = z.
Proof.
  unfold keyset, put. destruct z as [|e z].
  - by rewrite lookup_delete_eq.
  - by rewrite lookup_insert_eq.
Qed.

Lemma keyset_put_ne d k k' z : k ≠ k' → keyset (put d k z) k' = keyset d k'.
Proof.
  intros Hne. unfold keyset, put. destruct z as [|e z].
  - by rewrite lookup_delete_ne.
  - by rewrite lookup_insert_ne.
Qed.

Lemma zs_store_of k z : zs (store_of k z) k = z.
Proof. apply keyset_put. Qed.

Lemma put_put d k z z' : put (put d k z) k z' = put d k z'.
Proof.
  unfold put. destruct z, z'.
  - by rewrite delete_delete_eq.
  - by rewrite insert_delete_eq.
  - by rewrite delete_insert_eq.
  - by rewrite insert_insert_eq.
Qed.

End store_facts.

Section zset_facts.

Implicit Types (z : zset) (e x : entry) (m : string) (t : Z).

Lemma zinsert_perm e z : zinsert e z ≡ₚ e :: z.
Proof.
  induction z as [|x z IH]; simpl; [done|].
  destruct (entry_ltb e x); [done|].
  rewrite IH. apply perm_swap.
Qed.

#[global] Instance scores_perm : Proper ((≡ₚ) ==> (≡ₚ)) scores.
Proof. intros z z' H. unfold scores. by rewrite H. Qed.

#[global] Instance members_perm : Proper ((≡ₚ) ==> (≡ₚ)) members.
Proof. intros z z' H. unfold members. by rewrite H. Qed.

Lemma zinsert_length e z : length (zinsert e z) = S (length z).
Proof. by rewrite (Permutation_length (zinsert_perm e z)). Qed.

Lemma entry_ltb_false e x : entry_ltb e x = false → x.1 ≤ e.1.
Proof.
  unfold entry_ltb. intros H.
  apply orb_false_iff in H as [H _]. lia.
Qed.

Lemma entry_ltb_true e x : entry_ltb e x = true → e.1 ≤ x.1.
Proof.
  unfold entry_ltb. intros H.
  apply orb_true_iff in H as [H|H]; [lia|].
  apply andb_true_iff in H as [H _]. lia.
Qed.

Lemma zinsert_ranked e z : ranked z → ranked (zinsert e z).
Proof.
  unfold ranked. induction 1 as [|x z Hz IH Hx]; simpl.
  - repeat constructor.
  - destruct (entry_ltb e x) eqn:E.
    + constructor; [by constructor|].
      apply entry_ltb_true in E. constructor; [done|].
      eapply Forall_impl; [exact Hx|]. simpl. intros; lia.
    + constructor; [done|].
      rewrite (zinsert_perm e z). constructor; [|done].
      by apply entry_ltb_false.
Qed.

Lemma ranked_filter (f : entry → bool) z : ranked z → ranked (List.filter f z).
Proof.
  unfold ranked. induction 1 as [|x z Hz IH Hx]; simpl; [constructor|].
  destruct (f x); [|done].
  constructor; [done|].
  rewrite Forall_forall in Hx |- *. intros y Hy.
  apply Hx. apply list_elem_of_In, filter_In in Hy as [Hy _].
  by apply list_elem_of_In.
Qed.

Lemma ranked_drop n z : ranked z → ranked (drop n z).
Proof.
  intros H. unfold ranked in *. rewrite <- (take_drop n z) in H.
  by apply StronglySorted_app_1_r in H.
Qed.

Lemma ranked_take n z : ranked z → ranked (take n z).
Proof.
  intros H. unfold ranked in *. rewrite <- (take_drop n z) in H.
  by apply StronglySorted_app_1_l in H.
Qed.

Lemma ranked_split n z a b :
  ranked z → a ∈ take n z → b ∈ drop n z → a.1 ≤ b.1.
Proof.
  intros H Ha Hb. unfold ranked in H. rewrite <- (take_drop n z) in H.
  by apply (StronglySorted_app_1_elem_of _ _ _ a b) in H.
Qed.

Lemma ranked_abc : ranked abc.
Proof. unfold ranked, abc. repeat constructor; simpl; lia. Qed.

Lemma ranked_zadd1 z e : ranked z → ranked (zadd1 z e).
Proof. intros H. by apply zinsert_ranked, ranked_filter. Qed.


Lemma is_member_spec m z : is_member m z = true ↔ m ∈ members z.
Proof.
  unfold is_member, members. rewrite existsb_exists, list_elem_of_fmap.
  split.
  - intros (x & Hx & Hm). exists x. split; [|by apply list_elem_of_In].
    unfold has_member in Hm. by apply String.eqb_eq in Hm.
  - intros (x & -> & Hx). exists x. split; [by apply list_elem_of_In|].
    apply String.eqb_refl.
Qed.

Lemma has_score_spec t z : has_score t z = true ↔ t ∈ scores z.
Proof.
  unfold has_score, scores. rewrite existsb_exists, list_elem_of_fmap.
  split.
  - intros (x & Hx & Hm). exists x. split; [lia|by apply list_elem_of_In].
  - intros (x & -> & Hx). exists x. split; [by apply list_elem_of_In|lia].
Qed.

Lemma zdiscard_absent m z : is_member m z = false → zdiscard m z = z.
Proof.
  unfold zdiscard, is_member. induction z as [|x z IH]; simpl; [done|].
  intros H. apply orb_false_iff in H as [Hx Hz].
  rewrite Hx. simpl. by rewrite IH.
Qed.

Lemma zdiscard_length m z : (length (zdiscard m z) ≤ length z)%nat.
Proof. apply filter_length_le. Qed.

Lemma zdiscard_present m z :
  is_member m z = true → (length (zdiscard m z) < length z)%nat.
Proof.
  unfold zdiscard, is_member. induction z as [|x z IH]; simpl; [done|].
  destruct (has_member m x) eqn:E; simpl.
  - intros _. pose proof (filter_length_le (λ e, negb (has_member m e)) z). lia.
  - intros H. specialize (IH H). lia.
Qed.

Lemma zdiscard_keeps m m' z :
  m' ≠ m → is_member m' z = true → is_member m' (zdiscard m z) = true.
Proof.
  intros Hne. unfold zdiscard, is_member.
  induction z as [|x z IH]; simpl; [done|].
  intros H. apply orb_true_iff in H as [H|H].
  - assert (has_member m x = false) as ->.
    { unfold has_member in *. apply String.eqb_eq in H.
      apply String.eqb_neq. congruence. }
    simpl. by rewrite H.
  - destruct (negb (has_member m x)); simpl; rewrite IH; try done.
    apply orb_true_r.
Qed.

Lemma is_member_perm m z z' : z ≡ₚ z' → is_member m z = is_member m z'.
Proof.
  intros Hp. apply eq_true_iff_eq. rewrite !is_member_spec.
  unfold members. by rewrite Hp.
Qed.

Lemma is_member_zadd1_same z e : is_member e.2 (zadd1 z e) = true.
Proof.
  unfold zadd1. rewrite (is_member_perm _ _ _ (zinsert_perm _ _)).
  simpl. unfold has_member. by rewrite String.eqb_refl.
Qed.

Lemma is_member_zadd1 m z e :
  is_member m z = true → is_member m (zadd1 z e) = true.
Proof.
  intros H. destruct (decide (m = e.2)) as [->|Hne].
  - apply is_member_zadd1_same.
  - unfold zadd1. rewrite (is_member_perm _ _ _ (zinsert_perm _ _)).
    simpl. rewrite (zdiscard_keeps _ _ _ Hne H). apply orb_true_r.
Qed.

Lemma length_zadd1_fresh z e :
  is_member e.2 z = false → zadd1 z e = zinsert e z.
Proof. intros H. unfold zadd1. by rewrite zdiscard_absent. Qed.

Lemma members_zdiscard m z :
  members (zdiscard m z) =
  List.filter (λ s : string, negb (String.eqb s m)) (members z).
Proof.
  unfold members, zdiscard. induction z as [|x z IH]; simpl; [done|].
  unfold has_member at 1. destruct (String.eqb x.2 m); simpl; [done|].
  by f_equal.
Qed.

Lemma NoDup_members_zdiscard m z :
  NoDup (members z) → NoDup (members (zdiscard m z)).
Proof.
  rewrite members_zdiscard. intros H.
  apply NoDup_ListNoDup, List.NoDup_filter. by apply NoDup_ListNoDup.
Qed.

Lemma zdiscard_not_member m z : is_member m (zdiscard m z) = false.
Proof.
  unfold is_member, zdiscard. induction z as [|x z IH]; simpl; [done|].
  destruct (has_member m x) eqn:E; simpl; [done|]. by rewrite E.
Qed.

Lemma NoDup_members_zadd1 z e :
  NoDup (members z) → NoDup (members (zadd1 z e)).
Proof.
  intros H. unfold zadd1, members. rewrite (zinsert_perm e _). simpl.
  apply NoDup_cons. split; [|by apply NoDup_members_zdiscard].
  intros Hin. apply is_member_spec in Hin.
  by rewrite zdiscard_not_member in Hin.
Qed.

Lemma NoDup_members_zadd_all pairs z :
  NoDup (members z) → NoDup (members (zadd_all z pairs)).
Proof.
  revert z. induction pairs as [|e pairs IH]; intros z H; simpl; [done|].
  by apply IH, NoDup_members_zadd1.
Qed.

Lemma zdiscard_one m z :
  NoDup (members z) → is_member m z = true →
  S (length (zdiscard m z)) = length z.
Proof.
  unfold zdiscard, is_member. induction z as [|x z IH]; simpl; [done|].
  intros Hnd H. apply NoDup_cons in Hnd as [Hx Hnd].
  destruct (has_member m x) eqn:E; simpl.
  - f_equal. fold (zdiscard m z). f_equal. apply zdiscard_absent.
    apply not_true_is_false. intros Hm. apply Hx.
    apply is_member_spec in Hm. unfold has_member in E.
    apply String.eqb_eq in E. by rewrite E.
  - f_equal. by apply IH.
Qed.

Lemma length_zadd1 z e :
  NoDup (members z) →
  length (zadd1 z e) = if is_member e.2 z then length z else S (length z).
Proof.
  intros Hnd. unfold zadd1. rewrite zinsert_length.
  destruct (is_member e.2 z) eqn:E.
  - by apply zdiscard_one.
  - by rewrite zdiscard_absent.
Qed.

Lemma length_zadd1_ge z e :
  NoDup (members z) → (length z ≤ length (zadd1 z e))%nat.
Proof.
  intros Hnd. rewrite length_zadd1 by done.
  destruct (is_member e.2 z); lia.
Qed.

Lemma length_zadd_all_ge pairs z :
  NoDup (members z) → (length z ≤ length (zadd_all z pairs))%nat.
Proof.
  revert z. induction pairs as [|e pairs IH]; intros z H; simpl; [done|].
  etrans; [by apply (length_zadd1_ge z e)|].
  by apply IH, NoDup_members_zadd1.
Qed.

Lemma is_member_zadd_all m pairs z :
  is_member m z = true → is_member m (zadd_all z pairs) = true.
Proof.
  revert z. induction pairs as [|e pairs IH]; intros z H; simpl; [done|].
  by apply IH, is_member_zadd1.
Qed.

End zset_facts.

Ltac solve_NoDup :=
  repeat (apply NoDup_cons; split;
          [rewrite ?elem_of_cons, elem_of_nil; intuition congruence|]);
  apply NoDup_nil_2.

Ltac run_io :=
  unfold mbind, io_bind, bind, mret, io_ret, ret, lift, throw, query, send;
  simpl.

Section engine_runs.

Import RedisSampleTimeSeries.

Implicit Types (self : engine) (r : redis) (name : string) (z : zset).

Lemma count_at_score t z :
  (0 <? Z.of_nat (length (rangebyscore z (Score t) (Score t)))) = has_score t z.
Proof.
  unfold rangebyscore, has_score, in_range. simpl.
  induction z as [|x z IH]; simpl; [done|].
  destruct (x.1 =? t) eqn:E.
  - assert ((t <=? x.1) && (x.1 <=? t) = true) as -> by lia. simpl. done.
  - assert ((t <=? x.1) && (x.1 <=? t) = false) as -> by lia. simpl. done.
Qed.

Lemma add_run self name t data r :
  add self name t data r =
  (Ok (if has_score t (zs r name) then None
       else Some (if is_member (dumps (serializer self) data)
                                (evicted self (zs r name))
                  then 0 else 1)),
   {| db := if has_score t (zs r name) then db r
            else put (db r) name (add_step self (zs r name) t data);
      calls := calls r ++ add_calls self name (zs r name) t data |}).
Proof.
  unfold add, RedisTSBase.exist_timestamp, RedisTSBase.length, client.zcount,
    client.zcard, client.zremrangebyrank, client.zadd, add_step, add_calls,
    evicted, zs.
  run_io. rewrite count_at_score.
  destruct (has_score t (keyset (db r) name)); simpl; [done|].
  destruct (Z.of_nat (length (keyset (db r) name)) =? max_length self); simpl.
  - rewrite keyset_put, put_put, <- !app_assoc. simpl.
    by rewrite Z.add_0_r.
  - rewrite <- !app_assoc. simpl. by rewrite Z.add_0_r.
Qed.

Lemma add_zs self name t data r :
  zs (add self name t data r).2 name = add_step self (zs r name) t data.
Proof.
  rewrite add_run. simpl. unfold add_step.
  destruct (has_score t (zs r name)) eqn:E; [done|].
  unfold zs at 1. simpl. apply keyset_put.
Qed.

Lemma has_score_perm t z z' : z ≡ₚ z' → has_score t z = has_score t z'.
Proof.
  intros Hp. apply eq_true_iff_eq. rewrite !has_score_spec.
  unfold scores. by rewrite Hp.
Qed.

Lemma has_score_zadd1 z t m : has_score t (zadd1 z (t, m)) = true.
Proof.
  unfold zadd1. rewrite (has_score_perm _ _ _ (zinsert_perm _ _)).
  simpl. by rewrite Z.eqb_refl.
Qed.

Lemma has_score_add_step self z t data :
  has_score t (add_step self z t data) = true.
Proof.
  unfold add_step. destruct (has_score t z) eqn:E; [done|].
  apply has_score_zadd1.
Qed.

(** C5: a second [add] at the timestamp of a first one finds that
    timestamp in the series, returns [None], leaves the store as the first
    call left it and sends a single ZCOUNT, which is not a write. *)
Theorem add_same_timestamp_is_noop self name T P1 P2 r :
  let r1 := (add self name T P1 r).2 in
  let out := add self name T P2 r1 in
  out.1 = Ok None ∧
  db out.2 = db r1 ∧
  zs out.2 name = zs r1 name ∧
  calls out.2 = calls r1 ++ [ZCOUNT name (Score T) (Score T)] ∧
  List.filter is_write (calls out.2) = List.filter is_write (calls r1).
Proof.
  intros r1 out. subst out.
  assert (has_score T (zs r1 name) = true) as Hs.
  { subst r1. rewrite add_zs. apply has_score_add_step. }
  rewrite add_run. simpl. unfold add_calls. rewrite Hs. simpl.
  repeat split; try done.
  rewrite List.filter_app. simpl. by rewrite app_nil_r.
Qed.

(** *** [iter] *)

Lemma iter_items_numpy self items :
  use_numpy self = true → iter_items self items = ([], Exhausted).
Proof.
  intros Hn. induction items as [|item items IH]; simpl; [done|].
  by rewrite Hn.
Qed.

(** C7: whatever the series holds and whichever mode the engine is in,
    the generator returned by [iter] ends without yielding anything: in
    object mode the scan is never started, in numpy mode every scanned
    item is skipped. *)
Theorem iter_yields_nothing self name count r :
  (iter self name count r).1 = ([], Exhausted).
Proof.
  unfold iter. destruct (use_numpy self) eqn:Hn; [|done].
  unfold client.zscan_iter. run_io. by apply iter_items_numpy.
Qed.

Example iter_of_three_is_empty :
  let r := store_of "k" abc in
  zs r "k" = abc ∧
  (iter (text_engine 10 false) "k" None r).1 = ([], Exhausted) ∧
  (iter (text_engine 10 true) "k" None r).1 = ([], Exhausted).
Proof. by vm_compute. Qed.

(** *** Key validation *)

Lemma add_many_rejects_invalid_key self name pairs chunks_size r :
  (RedisTSBase.validate_key name r).1 = Raise KeyValidationError →
  add_many self name pairs chunks_size r = (Raise KeyValidationError, r).
Proof.
  unfold add_many, RedisTSBase.validate_key. run_io.
  by destruct (_ || _).
Qed.

(** C8: [add] never calls [validate_key].  With a name that
    [validate_key] rejects and a timestamp not yet in the series, [add]
    returns normally, has sent ZADD to the store, and the payload is a
    member of the series stored under the rejected name. *)
Theorem add_skips_key_validation self name t data r :
  (RedisTSBase.validate_key name r).1 = Raise KeyValidationError →
  has_score t (zs r name) = false →
  let out := add self name t data r in
  (∃ n, out.1 = Ok (Some n)) ∧
  ZADD name [(t, dumps (serializer self) data)] ∈ calls out.2 ∧
  is_member (dumps (serializer self) data) (zs out.2 name) = true.
Proof.
  intros _ Hs out. subst out. rewrite add_zs, add_run. simpl.
  unfold add_step, add_calls. rewrite Hs. split; [by eexists|]. split.
  - rewrite !elem_of_app. right. apply elem_of_cons. right.
    apply elem_of_cons. right. rewrite elem_of_app. right.
    by apply list_elem_of_singleton.
  - apply (is_member_zadd1_same _ (t, _)).
Qed.

Lemma add_skips_key_validation_witness :
  let out := add (text_engine 10 false) "" 1 (PyStr "a") empty_store in
  (RedisTSBase.validate_key "" empty_store).1 = Raise KeyValidationError ∧
  (∃ n, out.1 = Ok (Some n)) ∧
  ZADD "" [(1, "a"%string)] ∈ calls out.2 ∧
  is_member "a" (zs out.2 "") = true.
Proof.
  split; [reflexivity|].
  apply (add_skips_key_validation (text_engine 10 false) "" 1 (PyStr "a")
           empty_store); reflexivity.
Defined.

(** *** [delete] *)

Lemma delete_with_range self name t0 t1 r :
  truthy t0 || truthy t1 = true →
  let z := zs r name in
  let out := delete self name t0 t1 r in
  zs out.2 name = remrangebyscore z (as_min t0) (as_max t1) ∧
  out.1 = Ok (Z.of_nat (length (rangebyscore z (as_min t0) (as_max t1)))).
Proof.
  intros Ht z out. subst out z. unfold delete, client.zremrangebyscore.
  rewrite Ht. run_io. split.
  - unfold zs at 1. simpl. apply keyset_put.
  - f_equal. fold (zs r name). unfold remrangebyscore, rangebyscore.
    pose proof (filter_length (in_range (as_min t0) (as_max t1)) (zs r name)).
    unfold zs in *. lia.
Qed.

Lemma delete_without_truthy_bound self name t0 t1 r :
  truthy t0 || truthy t1 = false →
  let out := delete self name t0 t1 r in
  zs out.2 name = [] ∧ calls out.2 = calls r ++ [DEL [name]].
Proof.
  intros Ht out. subst out. unfold delete, client.delete.
  rewrite Ht. run_io. split; [|done].
  unfold zs, keyset. simpl. by rewrite lookup_delete_eq.
Qed.

(** C4: [delete(name, 0, 0)] on a series holding scores 0 and 5.  Both
    bounds are falsy, so the range branch is skipped and the key is
    deleted: the element at score 5, outside [0, 0], is gone, and the
    result 1 is the number of keys deleted. *)
Theorem delete_zero_bounds_deletes_series :
  let r := store_of "k" [(0, "a"); (5, "b")]%string in
  let out := delete (text_engine 10 false) "k" (Some 0) (Some 0) r in
  zs r "k" = [(0, "a"); (5, "b")]%string ∧
  out.1 = Ok 1 ∧
  zs out.2 "k" = [] ∧
  calls out.2 = [DEL ["k"%string]].
Proof. by vm_compute. Qed.

(** *** [trim] *)

Lemma remrangebyrank_prefix z L :
  0 < L → L < Z.of_nat (length z) →
  remrangebyrank z 0 (L - 1) = drop (Z.to_nat L) z.
Proof.
  intros H0 HL. unfold remrangebyrank, rank_window.
  assert ((0 <? 0) = false) as -> by lia.
  assert ((L - 1 <? 0) = false) as -> by lia.
  rewrite Z.max_id, Z.min_l by lia.
  assert ((L - 1 <? 0) = false) as -> by lia. simpl.
  do 2 f_equal. lia.
Qed.

Lemma trim_run self name L r :
  let z := zs r name in
  let C := Z.of_nat (length z) in
  zs (trim self name L r).2 name =
  if (L <? C) && (0 <? L) then remrangebyrank z 0 (L - 1)
  else if C <=? L then [] else z.
Proof.
  intros z C. subst z C.
  unfold trim, RedisTSBase.length, client.zcard, client.zremrangebyrank.
  run_io. unfold zs.
  destruct ((L <? Z.of_nat (length (keyset (db r) name))) && (0 <? L)); simpl.
  - apply keyset_put.
  - destruct (Z.of_nat (length (keyset (db r) name)) <=? L); simpl; [|done].
    unfold delete, client.delete. run_io.
    unfold keyset. by rewrite lookup_delete_eq.
Qed.

(** C1, as the code has it: [trim(name, L)] removes the [L] lowest-ranked
    elements.  With [0 < L < C] the [C - L] highest-scored elements stay;
    with [L >= C] the series is deleted; with [L <= 0] on a non-empty
    series nothing changes; the series never grows. *)
Theorem trim_removes_the_oldest self name L r :
  ranked (zs r name) →
  let z := zs r name in
  let C := Z.of_nat (length z) in
  let z' := zs (trim self name L r).2 name in
  (0 < L < C →
     z' = drop (Z.to_nat L) z ∧
     Z.of_nat (length z') = C - L ∧
     ∀ a b, a ∈ take (Z.to_nat L) z → b ∈ z' → a.1 ≤ b.1) ∧
  (C ≤ L → z' = []) ∧
  (L ≤ 0 < C → z' = z) ∧
  (length z' ≤ length z)%nat.
Proof.
  intros Hr z C z'. subst z'. rewrite trim_run. fold z C.
  repeat split.
  - assert ((L <? C) && (0 <? L) = true) as -> by lia.
    apply remrangebyrank_prefix; lia.
  - assert ((L <? C) && (0 <? L) = true) as -> by lia.
    rewrite remrangebyrank_prefix by lia. rewrite length_drop. lia.
  - assert ((L <? C) && (0 <? L) = true) as -> by lia.
    rewrite remrangebyrank_prefix by lia. intros a b Ha Hb.
    by apply (ranked_split (Z.to_nat L) z).
  - intros HL. assert ((L <? C) && (0 <? L) = false) as -> by lia.
    by assert ((C <=? L) = true) as -> by lia.
  - intros HL. assert ((L <? C) && (0 <? L) = false) as -> by lia.
    by assert ((C <=? L) = false) as -> by lia.
  - destruct ((L <? C) && (0 <? L)) eqn:E.
    + rewrite remrangebyrank_prefix by lia. rewrite length_drop. lia.
    + destruct (C <=? L); simpl; lia.
Qed.

Lemma trim_removes_the_oldest_witness :
  let r := store_of "k" abc in
  let z' := zs (trim (text_engine 10 false) "k" 1 r).2 "k" in
  ranked (zs r "k") ∧
  0 < 1 < Z.of_nat (length (zs r "k")) ∧
  z' = drop 1 abc ∧
  Z.of_nat (length z') = 3 - 1.
Proof.
  assert (ranked (zs (store_of "k" abc) "k")) as Hr.
  { rewrite zs_store_of. apply ranked_abc. }
  assert (0 < 1 < Z.of_nat (length (zs (store_of "k" abc) "k"))) as Hb.
  { rewrite zs_store_of. simpl. lia. }
  destruct (trim_removes_the_oldest (text_engine 10 false) "k" 1
              (store_of "k" abc) Hr) as (H & _).
  destruct (H Hb) as (H1 & H2 & _).
  rewrite zs_store_of in H1, H2.
  split; [exact Hr|]. split; [exact Hb|]. split; [exact H1|exact H2].
Defined.

(** C1 as stated fails: trimming a series of three to length 1 leaves
    two elements, and trimming it to length 0 leaves it untouched instead
    of deleting it. *)
Lemma trim_does_not_leave_L :
  let r := store_of "k" abc in
  let e := text_engine 10 false in
  zs r "k" = abc ∧
  zs (trim e "k" 1 r).2 "k" = [(2, "b"); (3, "c")]%string ∧
  length (zs (trim e "k" 1 r).2 "k") ≠ 1%nat ∧
  zs (trim e "k" 0 r).2 "k" = abc ∧
  zs (trim e "k" 0 r).2 "k" ≠ [].
Proof. by vm_compute. Qed.

(** *** [get] after [add] *)

Lemma in_range_at t x :
  in_range (Score t) (Score t) x = (x.1 =? t).
Proof. unfold in_range. simpl. lia. Qed.

Lemma rangebyscore_absent t z :
  has_score t z = false → rangebyscore z (Score t) (Score t) = [].
Proof.
  unfold has_score, rangebyscore. induction z as [|x z IH]; simpl; [done|].
  intros H. apply orb_false_iff in H as [Hx Hz].
  rewrite in_range_at, Hx. by apply IH.
Qed.

Lemma rangebyscore_zinsert_fresh t m z :
  has_score t z = false →
  rangebyscore (zinsert (t, m) z) (Score t) (Score t) = [(t, m)].
Proof.
  induction z as [|x z IH]; simpl.
  - intros _. unfold rangebyscore. simpl. rewrite in_range_at. simpl.
    by rewrite Z.eqb_refl.
  - intros H. apply orb_false_iff in H as [Hx Hz].
    destruct (entry_ltb (t, m) x).
    + unfold rangebyscore. simpl. rewrite !in_range_at. simpl.
      rewrite Z.eqb_refl, Hx. f_equal.
      by apply (rangebyscore_absent t z).
    + unfold rangebyscore. simpl. rewrite in_range_at, Hx.
      by apply IH.
Qed.

Lemma has_score_subset t z z' :
  z' ⊆ z → has_score t z = false → has_score t z' = false.
Proof.
  intros Hsub H. apply not_true_is_false. intros H'.
  apply not_true_iff_false in H. apply H.
  apply has_score_spec. apply has_score_spec in H'.
  unfold scores in *. apply list_elem_of_fmap in H' as (x & -> & Hx).
  apply list_elem_of_fmap. exists x. split; [done|]. by apply Hsub.
Qed.

Lemma filter_subset (f : entry → bool) z : List.filter f z ⊆ z.
Proof.
  intros x Hx. apply list_elem_of_In, filter_In in Hx as [Hx _].
  by apply list_elem_of_In.
Qed.

Lemma remrangebyrank_subset z a b : remrangebyrank z a b ⊆ z.
Proof.
  unfold remrangebyrank. intros x Hx. apply elem_of_app in Hx as [Hx|Hx].
  - by apply (subseteq_take _ z) in Hx.
  - by apply (subseteq_drop _ z) in Hx.
Qed.

Lemma evicted_subset self z : evicted self z ⊆ z.
Proof.
  unfold evicted. destruct (_ =? _); [apply remrangebyrank_subset|done].
Qed.

Lemma get_run self name t r :
  get self name t r =
  (match (rangebyscore (zs r name) (Score t) (Score t)).*2 with
   | [] => Ok PyNone
   | first :: _ =>
       if use_numpy self then Ok PyNone
       else match loads (serializer self) first with
            | Some v => Ok v
            | None => Raise SerializerError
            end
   end,
   {| db := db r;
      calls := calls r ++ [ZRANGEBYSCORE name (Score t) (Score t) None] |}).
Proof.
  unfold get, client.zrangebyscore. run_io. unfold zs.
  destruct ((rangebyscore (keyset (db r) name) (Score t) (Score t)).*2);
    [done|].
  destruct (use_numpy self); [done|].
  by destruct (loads (serializer self) s).
Qed.

Lemma add_step_fresh_range self z t data :
  has_score t z = false →
  rangebyscore (add_step self z t data) (Score t) (Score t) =
  [(t, dumps (serializer self) data)].
Proof.
  intros H. unfold add_step, zadd1. rewrite H. simpl.
  apply rangebyscore_zinsert_fresh.
  apply (has_score_subset t z); [|done].
  etrans; [apply filter_subset|apply evicted_subset].
Qed.

(** C6: with the engine in object mode and a codec that decodes what it
    encoded for [P], [get(name, T)] after [add(name, T, P)] returns [P]
    whenever no element had score [T] before the [add]. *)
Theorem get_after_add_round_trip self name T P r :
  use_numpy self = false →
  loads (serializer self) (dumps (serializer self) P) = Some P →
  has_score T (zs r name) = false →
  (get self name T (add self name T P r).2).1 = Ok P.
Proof.
  intros Hn Hc Hs. rewrite get_run. simpl.
  rewrite add_zs, add_step_fresh_range by done. simpl.
  by rewrite Hn, Hc.
Qed.

Lemma get_after_add_round_trip_witness :
  let e := text_engine 10 false in
  let r := store_of "k" abc in
  use_numpy e = false ∧
  loads (serializer e) (dumps (serializer e) (PyStr "d")) = Some (PyStr "d") ∧
  has_score 7 (zs r "k") = false ∧
  (get e "k" 7 (add e "k" 7 (PyStr "d") r).2).1 = Ok (PyStr "d").
Proof.
  split; [reflexivity|]. split; [reflexivity|]. split; [reflexivity|].
  apply (get_after_add_round_trip (text_engine 10 false) "k" 7 (PyStr "d")
           (store_of "k" abc)); reflexivity.
Defined.

(** C6 as stated fails for an engine in numpy mode: the element is
    stored, but [get] takes the [pass] branch and returns [None]. *)
Lemma get_after_add_in_numpy_mode_is_none :
  let e := text_engine 10 true in
  let r := store_of "k" abc in
  let r' := (add e "k" 7 (PyStr "d") r).2 in
  has_score 7 (zs r "k") = false ∧
  loads (serializer e) (dumps (serializer e) (PyStr "d")) = Some (PyStr "d") ∧
  zs r' "k" = [(1, "a"); (2, "b"); (3, "c"); (7, "d")]%string ∧
  (get e "k" 7 r').1 = Ok PyNone ∧
  (get e "k" 7 r').1 ≠ Ok (PyStr "d").
Proof. by vm_compute. Qed.

(** *** [add] above capacity *)

Lemma add_evicts_only_at_max_length self name t data r :
  has_score t (zs r name) = false →
  let out := add self name t data r in
  ZREMRANGEBYRANK name 0 0 ∈ add_calls self name (zs r name) t data ↔
  Z.of_nat (length (zs r name)) = max_length self.
Proof.
  intros Hs out. unfold add_calls. rewrite Hs.
  destruct (Z.of_nat (length (zs r name)) =? max_length self) eqn:E; simpl.
  - split; [lia|]. intros _. do 2 (apply elem_of_cons; right).
    apply elem_of_cons. by left.
  - split; [|lia]. intros H.
    repeat (apply elem_of_cons in H as [H|H]; [discriminate|]).
    by apply elem_of_nil in H.
Qed.

(** C10, with the payload new to the series: above capacity, an [add] at
    a timestamp not yet present whose encoded payload is not yet a member
    sends no ZREMRANGEBYRANK, keeps every element and adds one, so the
    series stays above [max_length]. *)
Theorem add_over_capacity_grows self name t data r :
  max_length self < Z.of_nat (length (zs r name)) →
  has_score t (zs r name) = false →
  is_member (dumps (serializer self) data) (zs r name) = false →
  let m := dumps (serializer self) data in
  let out := add self name t data r in
  out.1 = Ok (Some 1) ∧
  calls out.2 =
    calls r ++ [ZCOUNT name (Score t) (Score t); ZCARD name;
                ZADD name [(t, m)]] ∧
  zs out.2 name ≡ₚ (t, m) :: zs r name ∧
  length (zs out.2 name) = S (length (zs r name)) ∧
  max_length self < Z.of_nat (length (zs out.2 name)).
Proof.
  intros Hlen Hs Hm m out. subst out m.
  rewrite add_zs, add_run. simpl.
  unfold add_step, add_calls, evicted. rewrite Hs.
  assert ((Z.of_nat (length (zs r name)) =? max_length self) = false)
    as -> by lia.
  rewrite Hm. simpl.
  rewrite (length_zadd1_fresh _ (t, _)) by done.
  rewrite zinsert_length. repeat split; try done.
  - apply zinsert_perm.
  - lia.
Qed.

Lemma add_over_capacity_grows_witness :
  let e := text_engine 2 false in
  let r := store_of "k" abc in
  let out := add e "k" 7 (PyStr "d") r in
  max_length e < Z.of_nat (length (zs r "k")) ∧
  has_score 7 (zs r "k") = false ∧
  is_member "d" (zs r "k") = false ∧
  out.1 = Ok (Some 1) ∧
  length (zs out.2 "k") = S (length (zs r "k")).
Proof.
  assert (max_length (text_engine 2 false)
          < Z.of_nat (length (zs (store_of "k" abc) "k"))) as H1
    by (rewrite zs_store_of; simpl; lia).
  assert (has_score 7 (zs (store_of "k" abc) "k") = false) as H2
    by reflexivity.
  assert (is_member "d" (zs (store_of "k" abc) "k") = false) as H3
    by reflexivity.
  destruct (add_over_capacity_grows (text_engine 2 false) "k" 7 (PyStr "d")
              (store_of "k" abc) H1 H2 H3) as (Ha & _ & _ & Hb & _).
  repeat split; assumption.
Defined.

(** C10 as stated fails: above capacity, an [add] at a new timestamp
    whose encoded payload is already a member moves that member and the
    length stays the same. *)
Lemma add_over_capacity_same_payload :
  let e := text_engine 1 false in
  let r := store_of "k" [(1, "a"); (2, "b")]%string in
  let out := add e "k" 3 (PyStr "a") r in
  max_length e < Z.of_nat (length (zs r "k")) ∧
  has_score 3 (zs r "k") = false ∧
  zs out.2 "k" = [(2, "b"); (3, "a")]%string ∧
  ¬ (length (zs r "k") < length (zs out.2 "k"))%nat.
Proof.
  vm_compute. repeat split; try done. lia.
Qed.

(** *** [add_many] *)

Lemma chunks_fuel_concat {A} fuel (l : list A) n :
  (0 < n)%nat → (length l ≤ fuel)%nat →
  concat (utils.chunks_fuel fuel l n) = l.
Proof.
  intros Hn. revert l. induction fuel as [|fuel IH]; intros l Hl.
  - destruct l; [done|simpl in Hl; lia].
  - destruct l as [|x l]; [done|].
    cbn [utils.chunks_fuel concat]. rewrite IH.
    + apply take_drop.
    + rewrite length_drop. simpl in *. lia.
Qed.

Lemma chunks_fuel_nonempty {A} fuel (l : list A) n :
  (0 < n)%nat → Forall (λ c, c ≠ []) (utils.chunks_fuel fuel l n).
Proof.
  intros Hn. revert l. induction fuel as [|fuel IH]; intros l.
  - destruct l; constructor.
  - destruct l as [|x l]; [constructor|].
    cbn [utils.chunks_fuel]. constructor; [|apply IH].
    destruct n; [lia|done].
Qed.

Lemma chunks_concat {A} (l : list A) n :
  0 < n → concat (utils.chunks l n) = l.
Proof.
  intros Hn. unfold utils.chunks.
  assert ((n <=? 0) = false) as -> by lia.
  apply chunks_fuel_concat; lia.
Qed.

Lemma chunks_nonempty {A} (l : list A) n :
  Forall (λ c, c ≠ []) (utils.chunks l n).
Proof.
  unfold utils.chunks. destruct (n <=? 0) eqn:E; [constructor|].
  apply chunks_fuel_nonempty. lia.
Qed.

Lemma zadd_all_app z l1 l2 :
  zadd_all z (l1 ++ l2) = zadd_all (zadd_all z l1) l2.
Proof. apply fold_left_app. Qed.

Lemma encode_app self l1 l2 :
  encode self (l1 ++ l2) = encode self l1 ++ encode self l2.
Proof. apply fmap_app. Qed.

Lemma for_each_cons_ok {A} (x : A) items body r r1 :
  body x r = (Ok tt, r1) →
  for_each (x :: items) body r = for_each items body r1.
Proof.
  intros H. cbn [for_each]. unfold mbind, io_bind, bind. by rewrite H.
Qed.

Lemma add_many_chunk self name item r :
  item ≠ [] →
  add_many_chunk_body self name item r =
  (Ok tt,
   {| db := put (db r) name (zadd_all (zs r name) (encode self item));
      calls := calls r ++ [ZADD name (encode self item)] |}).
Proof.
  intros Hne. unfold add_many_chunk_body, RedisTSBase.transaction_pipe,
    client.zadd.
  destruct item as [|p item]; [done|]. by run_io.
Qed.

Lemma add_many_chunks self name items r :
  Forall (λ c, c ≠ []) items →
  let out := for_each items (add_many_chunk_body self name) r in
  out.1 = Ok tt ∧
  zs out.2 name = zadd_all (zs r name) (encode self (concat items)).
Proof.
  intros Hne. revert r.
  induction Hne as [|c items Hc Hne IH]; intros r; [done|].
  rewrite (for_each_cons_ok _ _ _ _ _ (add_many_chunk self name c r Hc)).
  match goal with
  | |- context [for_each items ?b ?r1] => destruct (IH r1) as [H1 H2]
  end.
  split; [exact H1|]. rewrite H2. unfold zs at 1. simpl.
  by rewrite keyset_put, encode_app, zadd_all_app.
Qed.

Lemma add_many_run self name pairs chunks_size r :
  let out := add_many self name pairs chunks_size r in
  ∃ written,
    zs out.2 name = zadd_all (zs r name) written ∧
    ∀ batch,
      (RedisTSBase.validate_key name r).1 = Ok tt →
      add_many_validate self name pairs = Ok batch →
      0 < chunks_size →
      out.1 = Ok tt ∧ written = encode self batch.
Proof.
  unfold add_many, RedisTSBase.validate_key. run_io.
  destruct (_ || _).
  { exists []. split; [done|]. intros batch Hv. discriminate. }
  simpl. destruct (add_many_validate self name pairs) as [batch|e].
  - pose proof (add_many_chunks self name (utils.chunks batch chunks_size) r
                  (chunks_nonempty _ _)) as [H1 H2].
    exists (encode self (concat (utils.chunks batch chunks_size))).
    split; [exact H2|]. intros batch' _ Hb Hc.
    injection Hb as <-. split; [exact H1|].
    by rewrite chunks_concat.
  - exists []. split; [done|]. intros batch _ Hb. discriminate.
Qed.

Lemma elem_of_zdiscard m z e :
  e ∈ z → e.2 ≠ m → e ∈ zdiscard m z.
Proof.
  intros Hin Hne. unfold zdiscard. apply list_elem_of_In, filter_In.
  split; [by apply list_elem_of_In|].
  unfold has_member. apply negb_true_iff. by apply String.eqb_neq.
Qed.

Lemma elem_of_zadd_all_untouched pairs z e :
  e ∈ z → e.2 ∉ members pairs → e ∈ zadd_all z pairs.
Proof.
  revert z. induction pairs as [|x pairs IH]; intros z Hin Hm; [done|].
  cbn [zadd_all fold_left]. fold (zadd_all (zadd1 z x) pairs).
  apply IH.
  - unfold zadd1. rewrite (zinsert_perm _ _). apply elem_of_cons. right.
    apply elem_of_zdiscard; [done|]. intros Heq. apply Hm.
    simpl. apply elem_of_cons. by left.
  - intros Hc. apply Hm. simpl. apply elem_of_cons. by right.
Qed.

(** What [add_many] writes: nothing, or the encoded batch that passed
    validation. *)
Lemma add_many_written self name pairs chunks_size r :
  ∃ written,
    zs (add_many self name pairs chunks_size r).2 name
    = zadd_all (zs r name) written ∧
    (written = [] ∨
     ∃ batch, add_many_validate self name pairs = Ok batch ∧
              written = encode self batch).
Proof.
  unfold add_many, RedisTSBase.validate_key. run_io.
  destruct (_ || _).
  { exists []. split; [done|by left]. }
  simpl. destruct (add_many_validate self name pairs) as [batch|e] eqn:Hv.
  - pose proof (add_many_chunks self name (utils.chunks batch chunks_size) r
                  (chunks_nonempty _ _)) as [_ H2].
    exists (encode self (concat (utils.chunks batch chunks_size))).
    split; [exact H2|].
    destruct (decide (0 < chunks_size)) as [Hc|Hc].
    + right. exists batch. split; [done|]. by rewrite chunks_concat.
    + left. unfold utils.chunks.
      by assert ((chunks_size <=? 0) = true) as -> by lia.
  - exists []. split; [done|by left].
Qed.

(** C9, for the elements the batch does not write again: whatever
    [max_length] is, [add_many] evicts nothing.  Every element whose
    member is not among the encoded payloads of the validated batch is
    still in the series, with its score; every member stored before is
    still stored (one that the batch writes again is moved to the
    batch's timestamp); the series is never shorter; and when the key is
    valid, the batch passes validation and the chunk size is positive,
    the series afterwards is exactly the series before with every pair of
    the batch upserted. *)
Theorem add_many_never_evicts self name pairs chunks_size r :
  NoDup (members (zs r name)) →
  let out := add_many self name pairs chunks_size r in
  (∀ e, e ∈ zs r name →
        (∀ batch, add_many_validate self name pairs = Ok batch →
                  e.2 ∉ members (encode self batch)) →
        e ∈ zs out.2 name) ∧
  (∀ m, is_member m (zs r name) = true →
        is_member m (zs out.2 name) = true) ∧
  (length (zs r name) ≤ length (zs out.2 name))%nat ∧
  (∀ batch,
     (RedisTSBase.validate_key name r).1 = Ok tt →
     add_many_validate self name pairs = Ok batch →
     0 < chunks_size →
     out.1 = Ok tt ∧
     zs out.2 name = zadd_all (zs r name) (encode self batch)).
Proof.
  intros Hnd out. subst out. split.
  { intros e Hin Hfresh.
    destruct (add_many_written self name pairs chunks_size r)
      as (w & -> & [->|(batch & Hv & ->)]); [done|].
    apply elem_of_zadd_all_untouched; [done|]. by apply Hfresh. }
  destruct (add_many_run self name pairs chunks_size r) as (w & Hz & Hok).
  rewrite Hz. repeat split.
  - intros m. apply is_member_zadd_all.
  - by apply length_zadd_all_ge.
  - by apply (Hok batch).
  - destruct (Hok batch) as [_ ->]; done.
Qed.

Lemma add_many_never_evicts_witness :
  let e := text_engine 1 false in
  let r := store_of "k" [(1, "a"%string)] in
  let out := add_many e "k" [(2, PyStr "b"); (3, PyStr "c")] 2 r in
  NoDup (members (zs r "k")) ∧
  (1, "a"%string) ∈ zs out.2 "k" ∧
  is_member "a" (zs out.2 "k") = true ∧
  (length (zs r "k") ≤ length (zs out.2 "k"))%nat ∧
  zs out.2 "k" = abc ∧
  max_length e < Z.of_nat (length (zs out.2 "k")).
Proof.
  assert (NoDup (members (zs (store_of "k" [(1, "a"%string)]) "k"))) as Hnd.
  { rewrite zs_store_of. apply NoDup_singleton. }
  destruct (add_many_never_evicts (text_engine 1 false) "k"
              [(2, PyStr "b"); (3, PyStr "c")] 2
              (store_of "k" [(1, "a"%string)]) Hnd) as (He & Hm & Hl & Hz).
  destruct (Hz [(2, PyStr "b"); (3, PyStr "c")]) as [_ Hz'];
    [reflexivity|reflexivity|lia|].
  split; [exact Hnd|]. split.
  { apply He.
    - rewrite zs_store_of. apply elem_of_cons. by left.
    - intros batch [= <-]. simpl. intros Hc.
      repeat (apply elem_of_cons in Hc as [Hc|Hc]; [discriminate|]).
      by apply elem_of_nil in Hc. }
  split; [by apply Hm|]. split; [exact Hl|].
  split; [rewrite Hz'; reflexivity|].
  rewrite Hz'. vm_compute. reflexivity.
Defined.

(** C9 as stated fails: a batch that carries, at a new timestamp, a
    payload already stored makes ZADD move the stored element.  The
    element at timestamp 1 is gone and [get] there finds nothing. *)
Lemma add_many_moves_a_resent_payload :
  let e := text_engine 10 false in
  let r := store_of "k" [(1, "a"%string)] in
  let out := add_many e "k" [(2, PyStr "a")] 2000 r in
  zs r "k" = [(1, "a"%string)] ∧
  out.1 = Ok tt ∧
  zs out.2 "k" = [(2, "a"%string)] ∧
  ((1, "a"%string) ∉ zs out.2 "k") ∧
  (get e "k" 1 r).1 = Ok (PyStr "a") ∧
  (get e "k" 1 out.2).1 = Ok PyNone.
Proof.
  assert (zs (add_many (text_engine 10 false) "k" [(2, PyStr "a")] 2000
                (store_of "k" [(1, "a"%string)])).2 "k"
          = [(2, "a"%string)]) as Hz by reflexivity.
  split; [reflexivity|]. split; [reflexivity|]. split; [exact Hz|].
  split; [|split; reflexivity].
  rewrite Hz. intros Hc.
  apply elem_of_cons in Hc as [Hc|Hc]; [discriminate|].
  by apply elem_of_nil in Hc.
Qed.

(** *** [get_slice] *)

Lemma decode_page_length self results p :
  decode_page self results = Ok p → length p = length results.
Proof.
  revert p. induction results as [|[data t] results IH]; intros p; simpl.
  - by intros [= <-].
  - destruct (loads (serializer self) data); [|done].
    destruct (decode_page self results) as [q|]; [|done].
    intros [= <-]. simpl. f_equal. by apply IH.
Qed.

Lemma first_window_length asc cs z :
  0 < cs → cs < Z.of_nat (length z) →
  length (first_window asc cs z) = Z.to_nat cs.
Proof.
  intros H0 Hlt. unfold first_window, limit. simpl.
  assert ((cs <? 0) = false) as -> by lia.
  rewrite length_fmap, length_take, drop_0.
  destruct asc; [|rewrite length_rev]; lia.
Qed.

Lemma zrange_func_first asc name lo hi cs r :
  zrange_func asc name lo hi 0 cs r =
  (Ok (first_window asc cs (rangebyscore (zs r name) lo hi)),
   {| db := db r;
      calls := calls r ++
        [if asc then ZRANGEBYSCORE name lo hi (Some (0, cs))
         else ZREVRANGEBYSCORE name hi lo (Some (0, cs))] |}).
Proof.
  unfold zrange_func, client.zrangebyscore_withscores,
    client.zrevrangebyscore_withscores, first_window.
  by destruct asc.
Qed.

Lemma get_slice_first_page self name t0 t1 lim asc cs r p :
  use_numpy self = false →
  0 < cs →
  cs < Z.of_nat (length (rangebyscore (zs r name) (as_min t0) (as_max t1))) →
  decode_page self
    (first_window asc cs (rangebyscore (zs r name) (as_min t0) (as_max t1)))
  = Ok p →
  ∃ rest r',
    get_slice self name t0 t1 lim asc cs SliceStart PyNone r =
    (Ok (Some (p, SlicePaged rest 0 Unbound)), r') ∧
    db r' = db r.
Proof.
  intros Hn H0 Hlt Hp.
  unfold get_slice, RedisTSBase.count, client.zcount. run_io.
  fold (zs r name).
  assert ((cs <? Z.of_nat (length (rangebyscore (zs r name)
                                     (as_min t0) (as_max t1)))) = true)
    as -> by lia.
  assert ((cs =? 0) = false) as -> by lia.
  assert (∃ k, Z.to_nat (Z.of_nat (length (rangebyscore (zs r name)
                 (as_min t0) (as_max t1))) `quot` cs) = S k) as [k ->].
  { exists (Nat.pred (Z.to_nat (Z.of_nat (length (rangebyscore (zs r name)
                 (as_min t0) (as_max t1))) `quot` cs))).
    assert (1 ≤ Z.of_nat (length (rangebyscore (zs r name)
                 (as_min t0) (as_max t1))) `quot` cs); [|lia].
    apply Z.quot_le_lower_bound; lia. }
  cbn [paged_loop]. run_io. rewrite zrange_func_first. simpl.
  rewrite Hn. unfold zs in Hp |- *. simpl. rewrite Hp.
  by eexists _, _.
Qed.

Lemma get_slice_resumed_with_none self name t0 t1 lim asc cs rest i index r :
  get_slice self name t0 t1 lim asc cs (SlicePaged rest i index) PyNone r =
  (Raise TypeError, r).
Proof. done. Qed.

(** C2, as the code has it: whenever the matching elements do not fit in
    one page, a consumer that iterates over [get_slice] receives the first
    page and then a [TypeError].  The value of the [yield] expression is
    [None] under plain iteration, so [yield_data[-1]] raises before any
    rank is looked up; no later page is ever produced. *)
Theorem get_slice_fails_after_first_page
    self name t0 t1 lim asc cs r fuel p :
  use_numpy self = false →
  0 < cs →
  cs < Z.of_nat (length (rangebyscore (zs r name) (as_min t0) (as_max t1))) →
  decode_page self
    (first_window asc cs (rangebyscore (zs r name) (as_min t0) (as_max t1)))
  = Ok p →
  let out :=
    iterate (S (S fuel)) (get_slice self name t0 t1 lim asc cs) SliceStart r in
  out.1 = ([p], Failed TypeError) ∧
  Z.of_nat (length p) = cs ∧
  ∀ c, c ∈ calls out.2 → c ∈ calls r ∨ ∀ k m, c ≠ ZRANK k m.
Proof.
  intros Hn H0 Hlt Hp out. subst out.
  destruct (get_slice_first_page self name t0 t1 lim asc cs r p Hn H0 Hlt Hp)
    as (rest & r' & Hfirst & Hdb).
  cbn [iterate]. rewrite Hfirst, get_slice_resumed_with_none. simpl.
  split; [done|]. split.
  - rewrite (decode_page_length _ _ _ Hp), first_window_length; lia.
  - revert Hfirst.
    unfold get_slice, RedisTSBase.count, client.zcount. run_io.
    fold (zs r name).
    assert ((cs <? Z.of_nat (length (rangebyscore (zs r name)
                                       (as_min t0) (as_max t1)))) = true)
      as -> by lia.
    assert ((cs =? 0) = false) as -> by lia.
    destruct (Z.to_nat _) as [|k]; [done|].
    cbn [paged_loop]. run_io. rewrite zrange_func_first. simpl.
    rewrite Hn. destruct (decode_page _ _); [|done]. simpl.
    intros [= _ _ <-]. simpl. intros c Hc.
    rewrite <- app_assoc in Hc. apply elem_of_app in Hc as [Hc|Hc]; [by left|].
    right. intros k' m ->.
    apply elem_of_cons in Hc as [Hc|Hc]; [done|].
    apply list_elem_of_singleton in Hc. by destruct asc.
Qed.

Lemma get_slice_fails_after_first_page_witness :
  let e := text_engine 10 false in
  let r := store_of "k" abc in
  let out := iterate 2 (get_slice e "k" None None None true 2) SliceStart r in
  use_numpy e = false ∧
  2 < Z.of_nat (length (rangebyscore (zs r "k") NegInf PosInf)) ∧
  out.1 = ([[(1, PyStr "a"); (2, PyStr "b")]], Failed TypeError).
Proof.
  split; [reflexivity|]. split; [reflexivity|].
  apply (get_slice_fails_after_first_page (text_engine 10 false) "k"
           None None None true 2 (store_of "k" abc) 0
           [(1, PyStr "a"); (2, PyStr "b")]); reflexivity.
Defined.

(** A consumer that sends every page back with [send] does not get the
    rest either: three matching elements with a page size of two give
    [int(3 / 2) = 1] pass, and the third element is never produced. *)
Example get_slice_drops_the_remainder :
  let e := text_engine 10 false in
  let r := store_of "k" abc in
  (iterate_sending 5 (get_slice e "k" None None None true 2)
     SliceStart PyNone r).1
  = ([[(1, PyStr "a"); (2, PyStr "b")]], Exhausted).
Proof. by vm_compute. Qed.

(** When the matching elements fit in one page they are all produced. *)
Example get_slice_single_page :
  let e := text_engine 10 false in
  let r := store_of "k" abc in
  (iterate 5 (get_slice e "k" None None None true 10) SliceStart r).1
  = ([[(1, PyStr "a"); (2, PyStr "b"); (3, PyStr "c")]], Exhausted).
Proof. by vm_compute. Qed.

(** *** Capacity *)

Lemma add_one_run self name item r :
  add_one self name item r =
  (Ok tt, (add self name item.1 item.2 r).2).
Proof. unfold add_one. run_io. by rewrite add_run. Qed.

Lemma add_each_run self name items r :
  let out := add_each self name items r in
  out.1 = Ok tt ∧ zs out.2 name = add_steps self (zs r name) items.
Proof.
  unfold add_each. revert r.
  induction items as [|item items IH]; intros r; [done|].
  rewrite (for_each_cons_ok _ _ _ _ _ (add_one_run self name item r)).
  destruct (IH (add self name item.1 item.2 r).2) as [H1 H2].
  split; [exact H1|]. rewrite H2. by rewrite add_zs.
Qed.

Lemma scores_encode self l : scores (encode self l) = l.*1.
Proof. unfold scores, encode. rewrite <- list_fmap_compose. done. Qed.

Lemma members_encode self l :
  members (encode self l) = dumps (serializer self) <$> l.*2.
Proof. unfold members, encode. by rewrite <- !list_fmap_compose. Qed.

Lemma add_step_new self z t data :
  has_score t z = false →
  Z.of_nat (length z) ≠ max_length self →
  is_member (dumps (serializer self) data) z = false →
  add_step self z t data = zinsert (t, dumps (serializer self) data) z.
Proof.
  intros Hs Hl Hm. unfold add_step, evicted. rewrite Hs.
  assert ((Z.of_nat (length z) =? max_length self) = false) as -> by lia.
  by apply (length_zadd1_fresh z (t, _)).
Qed.

Lemma has_score_false t z : has_score t z = false ↔ t ∉ scores z.
Proof.
  rewrite <- has_score_spec. by destruct (has_score t z).
Qed.

Lemma is_member_false m z : is_member m z = false ↔ m ∉ members z.
Proof.
  rewrite <- is_member_spec. by destruct (is_member m z).
Qed.

(** Below capacity every new item is simply inserted. *)
Lemma add_steps_below_capacity self items z :
  ranked z →
  NoDup (scores z ++ items.*1) →
  NoDup (members z ++ members (encode self items)) →
  Z.of_nat (length z + length items) ≤ max_length self →
  add_steps self z items ≡ₚ z ++ encode self items ∧
  ranked (add_steps self z items).
Proof.
  revert z. induction items as [|[t data] items IH]; intros z Hr Hs Hm Hl.
  - simpl. by rewrite app_nil_r.
  - cbn [add_steps fold_left fst snd].
    assert (add_step self z t data =
            zinsert (t, dumps (serializer self) data) z) as Hstep.
    { apply add_step_new.
      - apply has_score_false. intros Hin.
        apply NoDup_app in Hs as (_ & Hs & _). apply (Hs t Hin).
        simpl. apply elem_of_cons. by left.
      - simpl in Hl. lia.
      - apply is_member_false. intros Hin.
        apply NoDup_app in Hm as (_ & Hm & _). apply (Hm _ Hin).
        simpl. apply elem_of_cons. by left. }
    rewrite Hstep.
    assert (zinsert (t, dumps (serializer self) data) z ≡ₚ
            z ++ [(t, dumps (serializer self) data)]) as Hp.
    { rewrite zinsert_perm. apply Permutation_cons_append. }
    destruct (IH (zinsert (t, dumps (serializer self) data) z)) as [H1 H2].
    + by apply zinsert_ranked.
    + unfold scores in *. rewrite Hp, fmap_app, <- app_assoc. done.
    + unfold members in *. rewrite Hp, fmap_app, <- app_assoc. done.
    + rewrite zinsert_length. simpl in Hl. lia.
    + split; [|exact H2]. fold (add_steps self) in H1 |- *.
      unfold add_steps in H1 |- *. rewrite H1, Hp, <- app_assoc. done.
Qed.

Lemma remrangebyrank_head h tl : remrangebyrank (h :: tl) 0 0 = tl.
Proof.
  unfold remrangebyrank, rank_window.
  assert ((0 <? 0) = false) as -> by lia.
  rewrite Z.max_id, Z.min_l by (simpl; lia).
  by assert ((0 <? 0) = false) as -> by lia.
Qed.

(** At capacity the head of the rank order goes and the new item comes. *)
Lemma add_step_at_capacity self h tl t data :
  Z.of_nat (length (h :: tl)) = max_length self →
  has_score t (h :: tl) = false →
  is_member (dumps (serializer self) data) tl = false →
  add_step self (h :: tl) t data =
  zinsert (t, dumps (serializer self) data) tl.
Proof.
  intros Hl Hs Hm. unfold add_step, evicted. rewrite Hs.
  assert ((Z.of_nat (length (h :: tl)) =? max_length self) = true)
    as -> by lia.
  rewrite remrangebyrank_head.
  by apply (length_zadd1_fresh tl (t, _)).
Qed.

Lemma rangebyscore_unique t m z :
  NoDup (scores z) → (t, m) ∈ z →
  rangebyscore z (Score t) (Score t) = [(t, m)].
Proof.
  unfold scores. induction z as [|x z IH]; intros Hnd Hin.
  - by apply elem_of_nil in Hin.
  - simpl in Hnd. apply NoDup_cons in Hnd as [Hx Hnd].
    apply elem_of_cons in Hin as [<-|Hin].
    + unfold rangebyscore. simpl. rewrite in_range_at. simpl.
      rewrite Z.eqb_refl. f_equal. apply rangebyscore_absent.
      by apply has_score_false.
    + unfold rangebyscore. simpl. rewrite in_range_at.
      assert ((x.1 =? t) = false) as ->.
      { apply Z.eqb_neq. intros Heq. apply Hx. rewrite Heq.
        apply list_elem_of_fmap. by exists (t, m). }
      by apply IH.
Qed.

Lemma ranked_head_least h tl x : ranked (h :: tl) → x ∈ h :: tl → h.1 ≤ x.1.
Proof.
  intros Hr Hx. apply StronglySorted_inv in Hr as [_ Hall].
  apply elem_of_cons in Hx as [Hx|Hx]; [subst; lia|].
  rewrite Forall_forall in Hall. by apply Hall.
Qed.

Lemma encode_elem self t data items :
  (t, data) ∈ items → (t, dumps (serializer self) data) ∈ encode self items.
Proof.
  intros H. unfold encode. apply list_elem_of_fmap. by exists (t, data).
Qed.

Lemma NoDup_members_encode self items :
  NoDup items.*2 →
  (∀ data, data ∈ items.*2 →
     loads (serializer self) (dumps (serializer self) data) = Some data) →
  NoDup (members (encode self items)).
Proof.
  intros Hnd Hrt. rewrite members_encode.
  apply NoDup_fmap_2_strong; [|done].
  intros x y Hx Hy Heq.
  apply Hrt in Hx, Hy. rewrite Heq in Hx. congruence.
Qed.

(** The state of the series after [N] inserts below capacity followed by
    one insert at capacity: the element of least score is replaced by the
    new one. *)
Lemma add_steps_overflow self items t data :
  items ≠ [] →
  max_length self = Z.of_nat (length items) →
  NoDup (items ++ [(t, data)]).*1 →
  NoDup (members (encode self (items ++ [(t, data)]))) →
  ∃ h tl,
    h :: tl ≡ₚ encode self items ∧
    ranked (h :: tl) ∧
    add_steps self [] (items ++ [(t, data)]) ≡ₚ
      (t, dumps (serializer self) data) :: tl.
Proof.
  intros Hne Hmax Hts Hms.
  rewrite fmap_app in Hts. apply NoDup_app in Hts as (Hts & Hfresh & _).
  rewrite encode_app in Hms. unfold members in Hms.
  rewrite fmap_app in Hms. apply NoDup_app in Hms as (Hms & Hmfresh & _).
  destruct (add_steps_below_capacity self items []) as [Hp Hr].
  { constructor. }
  { done. }
  { done. }
  { simpl. lia. }
  simpl in Hp.
  destruct (add_steps self [] items) as [|h tl] eqn:Hz.
  { apply Permutation_nil in Hp. destruct items; [done|discriminate]. }
  exists h, tl. split; [done|]. split; [done|].
  unfold add_steps in Hz |- *. rewrite fold_left_app, Hz. simpl.
  rewrite add_step_at_capacity.
  - apply zinsert_perm.
  - rewrite (Permutation_length Hp). unfold encode.
    rewrite length_fmap. lia.
  - apply has_score_false. rewrite Hp, scores_encode. intros Hin.
    apply (Hfresh t Hin). simpl. apply elem_of_cons. by left.
  - apply is_member_false. intros Hin.
    apply (Hmfresh (dumps (serializer self) data)).
    + fold (members (encode self items)). rewrite <- Hp.
      unfold members in *. simpl. apply elem_of_cons. by right.
    + simpl. apply elem_of_cons. by left.
Qed.

(** C3, for an engine in object mode, a codec that decodes what it
    encoded for the payloads, and insertions whose last item does not
    carry the smallest timestamp: with [max_length = N >= 1], an empty
    series, and [N + 1] single [add] calls with distinct timestamps and
    distinct payloads, the series ends with [N] elements, [get] at the
    smallest timestamp finds nothing and [get] at the largest returns the
    payload added there. *)
Theorem capacity_evicts_the_oldest
    self name items last tmin pmin tmax pmax r :
  use_numpy self = false →
  items ≠ [] →
  max_length self = Z.of_nat (length items) →
  zs r name = [] →
  NoDup (items ++ [last]).*1 →
  NoDup (items ++ [last]).*2 →
  (∀ data, data ∈ (items ++ [last]).*2 →
     loads (serializer self) (dumps (serializer self) data) = Some data) →
  (tmin, pmin) ∈ items →
  (∀ t, t ∈ (items ++ [last]).*1 → tmin ≤ t) →
  (tmax, pmax) ∈ items ++ [last] →
  (∀ t, t ∈ (items ++ [last]).*1 → t ≤ tmax) →
  let r' := (add_each self name (items ++ [last]) r).2 in
  length (zs r' name) = length items ∧
  (get self name tmin r').1 = Ok PyNone ∧
  (get self name tmax r').1 = Ok pmax.
Proof.
  intros Hn Hne Hmax Hempty Hts Hps Hrt Hmin Hle Hmaxin Hge r'. subst r'.
  destruct last as [tl_ pl].
  destruct (add_each_run self name (items ++ [(tl_, pl)]) r) as [_ Hz].
  rewrite Hempty in Hz.
  pose proof (NoDup_members_encode self _ Hps Hrt) as Hms.
  destruct (add_steps_overflow self items tl_ pl Hne Hmax Hts Hms)
    as (h & tl & Hp & Hr & Hfin).
  rewrite <- Hz in Hfin. clear Hz.
  set (z' := zs (add_each self name (items ++ [(tl_, pl)]) r).2 name) in *.
  (* the scores of the N first items, in rank order *)
  assert (h.1 :: scores tl ≡ₚ items.*1) as Hsc.
  { change (h.1 :: scores tl) with (scores (h :: tl)).
    by rewrite Hp, scores_encode. }
  pose proof Hts as Hts'.
  rewrite fmap_app in Hts'. apply NoDup_app in Hts' as (Hts1 & Hfresh & _).
  assert (tl_ ∉ items.*1) as Hlast.
  { intros Hin. apply (Hfresh tl_ Hin). simpl. apply elem_of_cons. by left. }
  assert (NoDup (h.1 :: scores tl)) as Hnd by (by rewrite Hsc).
  apply NoDup_cons in Hnd as [Hh Hnd].
  (* the head is the element of least timestamp *)
  assert (h.1 = tmin) as Hhead.
  { assert (h.1 ≤ tmin).
    { apply (ranked_head_least h tl (tmin, dumps (serializer self) pmin) Hr).
      rewrite Hp. by apply encode_elem. }
    assert (tmin ≤ h.1); [|lia].
    apply Hle. rewrite fmap_app. apply elem_of_app. left.
    rewrite <- Hsc. apply elem_of_cons. by left. }
  assert (tmin ∈ items.*1) as Hminin.
  { apply list_elem_of_fmap. by exists (tmin, pmin). }
  assert (scores z' ≡ₚ tl_ :: scores tl) as Hsc'.
  { unfold scores. by rewrite Hfin. }
  assert (rangebyscore z' (Score tmin) (Score tmin) = []) as Habs.
  { apply rangebyscore_absent, has_score_false. rewrite Hsc'. intros Hin.
    apply elem_of_cons in Hin as [->|Hin]; [done|].
    by rewrite <- Hhead in Hin. }
  assert ((tmax, dumps (serializer self) pmax) ∈ z') as Hin.
  { rewrite Hfin. apply elem_of_app in Hmaxin as [Hin|Hin].
    - apply elem_of_cons. right.
      apply (encode_elem self) in Hin. rewrite <- Hp in Hin.
      apply elem_of_cons in Hin as [Heq|Hin]; [|done].
      exfalso. apply Hlast.
      assert (tmax = tmin) as Htm by (rewrite <- Hhead, <- Heq; done).
      assert (tl_ = tmin) as ->; [|done].
      assert (tl_ ∈ (items ++ [(tl_, pl)]).*1) as Hl.
      { rewrite fmap_app. apply elem_of_app. right. simpl.
        apply elem_of_cons. by left. }
      pose proof (Hle _ Hl). pose proof (Hge _ Hl). lia.
    - apply list_elem_of_singleton in Hin. injection Hin as -> ->.
      apply elem_of_cons. by left. }
  assert (rangebyscore z' (Score tmax) (Score tmax) =
          [(tmax, dumps (serializer self) pmax)]) as Hone.
  { apply rangebyscore_unique; [|done].
    rewrite Hsc'. apply NoDup_cons. split; [|done].
    intros Hin'. apply Hlast. rewrite <- Hsc. apply elem_of_cons. by right. }
  split; [|split].
  - rewrite (Permutation_length Hfin). simpl.
    apply Permutation_length in Hp. simpl in Hp. rewrite Hp.
    unfold encode. by rewrite length_fmap.
  - rewrite get_run. simpl. fold z'. by rewrite Habs.
  - rewrite get_run. simpl. fold z'. rewrite Hone. simpl.
    rewrite Hn, Hrt; [done|].
    apply list_elem_of_fmap. by exists (tmax, pmax).
Qed.

Lemma capacity_evicts_the_oldest_witness :
  let e := text_engine 2 false in
  let items := [(1, PyStr "a"); (3, PyStr "c")] in
  let last := (2, PyStr "b") in
  let r' := (add_each e "k" (items ++ [last]) empty_store).2 in
  max_length e = Z.of_nat (length items) ∧
  zs empty_store "k" = [] ∧
  NoDup (items ++ [last]).*1 ∧
  NoDup (items ++ [last]).*2 ∧
  length (zs r' "k") = 2%nat ∧
  (get e "k" 1 r').1 = Ok PyNone ∧
  (get e "k" 3 r').1 = Ok (PyStr "c").
Proof.
  assert (NoDup ([(1, PyStr "a"); (3, PyStr "c")] ++ [(2, PyStr "b")]).*1)
    as Hts.
  { simpl. solve_NoDup. }
  assert (NoDup ([(1, PyStr "a"); (3, PyStr "c")] ++ [(2, PyStr "b")]).*2)
    as Hps.
  { simpl. solve_NoDup. }
  split; [reflexivity|]. split; [reflexivity|].
  split; [exact Hts|]. split; [exact Hps|].
  apply (capacity_evicts_the_oldest (text_engine 2 false) "k"
           [(1, PyStr "a"); (3, PyStr "c")] (2, PyStr "b")
           1 (PyStr "a") 3 (PyStr "c") empty_store).
  - reflexivity.
  - discriminate.
  - reflexivity.
  - reflexivity.
  - exact Hts.
  - exact Hps.
  - intros data Hd. simpl in Hd.
    repeat (apply elem_of_cons in Hd as [->|Hd]; [reflexivity|]).
    by apply elem_of_nil in Hd.
  - apply elem_of_cons. by left.
  - intros t Ht. simpl in Ht.
    repeat (apply elem_of_cons in Ht as [->|Ht]; [lia|]).
    by apply elem_of_nil in Ht.
  - apply elem_of_cons. right. apply elem_of_cons. by left.
  - intros t Ht. simpl in Ht.
    repeat (apply elem_of_cons in Ht as [->|Ht]; [lia|]).
    by apply elem_of_nil in Ht.
Defined.

(** C3 as stated fails.  With [max_length = 1], adding timestamp 5 and
    then timestamp 1 evicts the element at 5: the smallest timestamp is
    the one that stays.  With [max_length = 0] a single [add] leaves one
    element.  In numpy mode, with [max_length = 1] and timestamps 1 and 2
    added in order, the element at 2 is stored but [get] at 2 returns
    [None]. *)
Lemma capacity_keeps_a_late_smallest_timestamp :
  let e := text_engine 1 false in
  let r := (add_each e "k" [(5, PyStr "a"); (1, PyStr "b")] empty_store).2 in
  let r0 := (add_each (text_engine 0 false) "k" [(1, PyStr "a")]
               empty_store).2 in
  let en := text_engine 1 true in
  let rn := (add_each en "k" [(1, PyStr "a"); (2, PyStr "b")]
               empty_store).2 in
  zs r "k" = [(1, "b"%string)] ∧
  (get e "k" 1 r).1 = Ok (PyStr "b") ∧
  (get e "k" 1 r).1 ≠ Ok PyNone ∧
  (get e "k" 5 r).1 = Ok PyNone ∧
  (get e "k" 5 r).1 ≠ Ok (PyStr "a") ∧
  length (zs r0 "k") = 1%nat ∧
  length (zs r0 "k") ≠ 0%nat ∧
  zs rn "k" = [(2, "b"%string)] ∧
  (get en "k" 2 rn).1 = Ok PyNone ∧
  (get en "k" 2 rn).1 ≠ Ok (PyStr "b").
Proof. by vm_compute. Qed.

(** The scenario of the specification: [max_length = 10] and timestamps
    0 to 10 added in order. *)
Example capacity_scenario :
  let e := text_engine 10 false in
  let items :=
    [(0, PyStr "p0"); (1, PyStr "p1"); (2, PyStr "p2"); (3, PyStr "p3");
     (4, PyStr "p4"); (5, PyStr "p5"); (6, PyStr "p6"); (7, PyStr "p7");
     (8, PyStr "p8"); (9, PyStr "p9"); (10, PyStr "p10")] in
  let r := (add_each e "k" items empty_store).2 in
  length (zs r "k") = 10%nat ∧
  (get e "k" 0 r).1 = Ok PyNone ∧
  (get e "k" 10 r).1 = Ok (PyStr "p10").
Proof. by vm_compute. Qed.

End engine_runs.

(** * Further properties of the engine *)

Section sorted_set_invariants.

Implicit Types (z : zset) (e x : entry) (m : string) (t : Z).

Lemma filter_sublist (f : entry → bool) z : List.filter f z `sublist_of` z.
Proof.
  induction z as [|x z IH]; simpl; [constructor|].
  destruct (f x); by constructor.
Qed.

Lemma remrangebyrank_sublist z a b : remrangebyrank z a b `sublist_of` z.
Proof.
  unfold remrangebyrank.
  set (w := rank_window (Z.of_nat (length z)) a b).
  rewrite <- (take_drop w.1 z) at 3.
  apply sublist_app; [done|].
  rewrite <- drop_drop. apply sublist_drop.
Qed.

Lemma ranked_sublist z z' : z' `sublist_of` z → ranked z → ranked z'.
Proof.
  unfold ranked. induction 1 as [|x z' z Hsub IH|x z' z Hsub IH]; intros Hr.
  - constructor.
  - apply StronglySorted_inv in Hr as [Hr Hall]. constructor; [by apply IH|].
    rewrite Forall_forall in Hall |- *. intros y Hy. apply Hall.
    by apply (elem_of_sublist z' z).
  - apply StronglySorted_inv in Hr as [Hr _]. by apply IH.
Qed.

Lemma scores_sublist z z' : z' `sublist_of` z → scores z' `sublist_of` scores z.
Proof. intros H. unfold scores. by apply fmap_sublist. Qed.

Lemma members_sublist z z' :
  z' `sublist_of` z → members z' `sublist_of` members z.
Proof. intros H. unfold members. by apply fmap_sublist. Qed.

Lemma length_zadd1_le z e : (length (zadd1 z e) ≤ S (length z))%nat.
Proof.
  unfold zadd1. rewrite zinsert_length.
  pose proof (zdiscard_length e.2 z). lia.
Qed.

Lemma zdiscard_sublist m z : zdiscard m z `sublist_of` z.
Proof. apply filter_sublist. Qed.

Lemma NoDup_scores_zadd1 z t m :
  NoDup (scores z) → t ∉ scores z → NoDup (scores (zadd1 z (t, m))).
Proof.
  intros Hnd Ht. unfold zadd1. rewrite (zinsert_perm _ _). simpl.
  pose proof (scores_sublist _ _ (zdiscard_sublist m z)) as Hsub.
  apply NoDup_cons. split.
  - intros Hin. apply Ht. by apply (elem_of_sublist _ _ _ Hin).
  - by apply (sublist_NoDup _ _ Hnd).
Qed.

End sorted_set_invariants.

Section add_properties.

Import RedisSampleTimeSeries.

Implicit Types (self : engine) (r : redis) (name : string) (z : zset).

Lemma evicted_sublist self z : evicted self z `sublist_of` z.
Proof.
  unfold evicted. destruct (_ =? _); [apply remrangebyrank_sublist|done].
Qed.

Lemma evicted_at_capacity self z :
  1 ≤ max_length self → Z.of_nat (length z) = max_length self →
  S (length (evicted self z)) = length z.
Proof.
  intros H1 Hl. unfold evicted.
  assert ((Z.of_nat (length z) =? max_length self) = true) as -> by lia.
  destruct z as [|h tl]; [simpl in Hl; lia|].
  by rewrite remrangebyrank_head.
Qed.

(** X1: With a capacity of at least one, a series within capacity stays within
    capacity after any single [add]. *)
Theorem add_keeps_within_max_length self name t data r :
  1 ≤ max_length self →
  Z.of_nat (length (zs r name)) ≤ max_length self →
  Z.of_nat (length (zs (add self name t data r).2 name)) ≤ max_length self.
Proof.
  intros H1 Hl. rewrite add_zs. unfold add_step.
  destruct (has_score t (zs r name)); [done|].
  pose proof (length_zadd1_le (evicted self (zs r name))
                (t, dumps (serializer self) data)) as Hle.
  destruct (decide (Z.of_nat (length (zs r name)) = max_length self)) as [He|He].
  - pose proof (evicted_at_capacity self _ H1 He). lia.
  - pose proof (sublist_length _ _ (evicted_sublist self (zs r name))). lia.
Qed.

Lemma add_keeps_within_max_length_witness :
  let e := text_engine 3 false in
  let r := store_of "k" abc in
  1 ≤ max_length e ∧
  Z.of_nat (length (zs r "k")) ≤ max_length e ∧
  Z.of_nat (length (zs (add e "k" 9 (PyStr "z") r).2 "k")) ≤ max_length e.
Proof.
  assert (1 ≤ max_length (text_engine 3 false)) as H1 by (simpl; lia).
  assert (Z.of_nat (length (zs (store_of "k" abc) "k"))
          ≤ max_length (text_engine 3 false)) as H2
    by (rewrite zs_store_of; simpl; lia).
  split; [exact H1|]. split; [exact H2|].
  exact (add_keeps_within_max_length (text_engine 3 false) "k" 9 (PyStr "z")
           (store_of "k" abc) H1 H2).
Defined.

(** X2: [add] keeps the series a well-formed sorted set with one element per
    timestamp: rank order, distinct members and distinct scores are all
    preserved. *)
Theorem add_preserves_series_invariants self name t data r :
  ranked (zs r name) →
  NoDup (members (zs r name)) →
  NoDup (scores (zs r name)) →
  let z' := zs (add self name t data r).2 name in
  ranked z' ∧ NoDup (members z') ∧ NoDup (scores z').
Proof.
  intros Hr Hm Hs z'. subst z'. rewrite add_zs. unfold add_step.
  destruct (has_score t (zs r name)) eqn:Ht; [done|].
  pose proof (evicted_sublist self (zs r name)) as Hsub.
  split; [|split].
  - apply ranked_zadd1. by apply (ranked_sublist (zs r name)).
  - apply NoDup_members_zadd1.
    by apply (sublist_NoDup _ _ Hm), members_sublist.
  - apply NoDup_scores_zadd1.
    + by apply (sublist_NoDup _ _ Hs), scores_sublist.
    + intros Hin. apply has_score_false in Ht. apply Ht.
      apply (elem_of_sublist _ _ _ Hin). by apply scores_sublist.
Qed.

Lemma add_preserves_series_invariants_witness :
  let r := store_of "k" abc in
  let z' := zs (add (text_engine 3 false) "k" 9 (PyStr "z") r).2 "k" in
  ranked (zs r "k") ∧ NoDup (members (zs r "k")) ∧ NoDup (scores (zs r "k")) ∧
  ranked z' ∧ NoDup (members z') ∧ NoDup (scores z').
Proof.
  assert (ranked (zs (store_of "k" abc) "k")) as Hr
    by (rewrite zs_store_of; apply ranked_abc).
  assert (NoDup (members (zs (store_of "k" abc) "k"))) as Hm
    by (rewrite zs_store_of; simpl; solve_NoDup).
  assert (NoDup (scores (zs (store_of "k" abc) "k"))) as Hs
    by (rewrite zs_store_of; simpl; solve_NoDup).
  split; [exact Hr|]. split; [exact Hm|]. split; [exact Hs|].
  exact (add_preserves_series_invariants (text_engine 3 false) "k" 9
           (PyStr "z") (store_of "k" abc) Hr Hm Hs).
Defined.

Lemma same_score_same_entry z x y :
  NoDup (scores z) → x ∈ z → y ∈ z → x.1 = y.1 → x = y.
Proof.
  unfold scores. induction z as [|h z IH]; intros Hnd Hx Hy Heq.
  - by apply elem_of_nil in Hx.
  - simpl in Hnd. apply NoDup_cons in Hnd as [Hh Hnd].
    apply elem_of_cons in Hx as [->|Hx], Hy as [->|Hy]; try done.
    + exfalso. apply Hh. rewrite Heq. apply list_elem_of_fmap. by exists y.
    + exfalso. apply Hh. rewrite <- Heq. apply list_elem_of_fmap. by exists x.
    + by apply IH.
Qed.

(** X4: The uniqueness collapse of the sorted set: in a series whose
    members are distinct and whose timestamps are distinct, adding, at a
    new timestamp and away from capacity, a payload whose encoding is
    already stored moves the stored element.  ZADD reports no new element,
    the length is unchanged, the element is now at the new timestamp and
    nothing is left at the old one. *)
Theorem add_moves_an_existing_payload self name t1 t2 data r :
  NoDup (members (zs r name)) →
  NoDup (scores (zs r name)) →
  (t1, dumps (serializer self) data) ∈ zs r name →
  has_score t2 (zs r name) = false →
  Z.of_nat (length (zs r name)) ≠ max_length self →
  let out := add self name t2 data r in
  out.1 = Ok (Some 0) ∧
  length (zs out.2 name) = length (zs r name) ∧
  (t2, dumps (serializer self) data) ∈ zs out.2 name ∧
  has_score t1 (zs out.2 name) = false ∧
  (get self name t1 out.2).1 = Ok PyNone.
Proof.
  intros Hm Hs Hin Ht2 Hlen out. subst out.
  set (m := dumps (serializer self) data) in *.
  assert (is_member m (zs r name) = true) as Hmem.
  { apply is_member_spec. unfold members. apply list_elem_of_fmap.
    by exists (t1, m). }
  assert (evicted self (zs r name) = zs r name) as Hev.
  { unfold evicted.
    by assert ((Z.of_nat (length (zs r name)) =? max_length self) = false)
      as -> by lia. }
  assert (zs (add self name t2 data r).2 name
          = zinsert (t2, m) (zdiscard m (zs r name))) as Hz.
  { rewrite add_zs. unfold add_step. by rewrite Ht2, Hev. }
  assert (has_score t1 (zs (add self name t2 data r).2 name) = false) as Hgone.
  { rewrite Hz. apply has_score_false.
    rewrite (zinsert_perm _ _). simpl. intros Hc.
    apply elem_of_cons in Hc as [Heq|Hc].
    - apply has_score_false in Ht2. apply Ht2. rewrite <- Heq.
      unfold scores. apply list_elem_of_fmap. by exists (t1, m).
    - unfold scores in Hc. apply list_elem_of_fmap in Hc as (x & Hx1 & Hx).
      assert (x ∈ zs r name) as Hxz
        by (by apply (elem_of_sublist _ _ _ Hx), zdiscard_sublist).
      assert (x = (t1, m)) as -> by (by apply (same_score_same_entry (zs r name))).
      assert (is_member m (zdiscard m (zs r name)) = true) as Hbad.
      { apply is_member_spec. unfold members. apply list_elem_of_fmap.
        by exists (t1, m). }
      by rewrite zdiscard_not_member in Hbad. }
  split; [|split; [|split; [|split]]].
  - rewrite add_run. simpl. unfold m in *. by rewrite Ht2, Hev, Hmem.
  - rewrite Hz, zinsert_length. by apply zdiscard_one.
  - rewrite Hz, (zinsert_perm _ _). apply elem_of_cons. by left.
  - exact Hgone.
  - rewrite get_run. simpl. by rewrite (rangebyscore_absent _ _ Hgone).
Qed.

Lemma add_moves_an_existing_payload_witness :
  let e := text_engine 10 false in
  let r := store_of "k" abc in
  let out := add e "k" 7 (PyStr "a") r in
  (1, dumps (serializer e) (PyStr "a")) ∈ zs r "k" ∧
  has_score 7 (zs r "k") = false ∧
  out.1 = Ok (Some 0) ∧
  length (zs out.2 "k") = length (zs r "k") ∧
  (get e "k" 1 out.2).1 = Ok PyNone.
Proof.
  assert (NoDup (members (zs (store_of "k" abc) "k"))) as Hm
    by (rewrite zs_store_of; simpl; solve_NoDup).
  assert (NoDup (scores (zs (store_of "k" abc) "k"))) as Hs
    by (rewrite zs_store_of; simpl; solve_NoDup).
  assert ((1, dumps (serializer (text_engine 10 false)) (PyStr "a"))
          ∈ zs (store_of "k" abc) "k") as Hin
    by (rewrite zs_store_of; apply elem_of_cons; by left).
  assert (has_score 7 (zs (store_of "k" abc) "k") = false) as Ht
    by reflexivity.
  assert (Z.of_nat (length (zs (store_of "k" abc) "k"))
          ≠ max_length (text_engine 10 false)) as Hl
    by (rewrite zs_store_of; simpl; lia).
  destruct (add_moves_an_existing_payload (text_engine 10 false) "k" 1 7
              (PyStr "a") (store_of "k" abc) Hm Hs Hin Ht Hl)
    as (H1 & H2 & _ & _ & H5).
  split; [exact Hin|]. split; [exact Ht|]. split; [exact H1|].
  split; [exact H2|exact H5].
Defined.

End add_properties.

Section read_and_delete_properties.

Import RedisSampleTimeSeries.

Implicit Types (self : engine) (r : redis) (name : string) (z : zset).

(** X6: [get] sends one ZRANGEBYSCORE and nothing else, so the store is as it
    was; when no element of the series has the timestamp as score (in
    particular when the key is missing) the result is Python's [None]. *)
Theorem get_reads_only self name t r :
  let out := get self name t r in
  db out.2 = db r ∧
  calls out.2 = calls r ++ [ZRANGEBYSCORE name (Score t) (Score t) None] ∧
  (has_score t (zs r name) = false → out.1 = Ok PyNone).
Proof.
  intros out. subst out. rewrite get_run. simpl.
  split; [done|]. split; [done|].
  intros Hs. by rewrite (rangebyscore_absent _ _ Hs).
Qed.

Lemma get_reads_only_witness :
  let out := get (text_engine 10 false) "missing" 4 (store_of "k" abc) in
  has_score 4 (zs (store_of "k" abc) "missing") = false ∧
  db out.2 = db (store_of "k" abc) ∧
  out.1 = Ok PyNone.
Proof.
  destruct (get_reads_only (text_engine 10 false) "missing" 4
              (store_of "k" abc)) as (H1 & _ & H3).
  split; [reflexivity|]. split; [exact H1|]. apply H3. reflexivity.
Defined.

(** X7: In object mode [get] decodes the member stored at the timestamp; a
    member the codec cannot decode makes it raise. *)
Theorem get_returns_the_stored_payload self name t m r :
  use_numpy self = false →
  NoDup (scores (zs r name)) →
  (t, m) ∈ zs r name →
  (get self name t r).1 =
  match loads (serializer self) m with
  | Some v => Ok v
  | None => Raise SerializerError
  end.
Proof.
  intros Hn Hs Hin. rewrite get_run. simpl.
  rewrite (rangebyscore_unique t m) by done. simpl. rewrite Hn.
  by destruct (loads (serializer self) m).
Qed.

Lemma get_returns_the_stored_payload_witness :
  let e := text_engine 10 false in
  let r := store_of "k" abc in
  use_numpy e = false ∧
  NoDup (scores (zs r "k")) ∧
  (2, "b"%string) ∈ zs r "k" ∧
  (get e "k" 2 r).1 = Ok (PyStr "b").
Proof.
  assert (NoDup (scores (zs (store_of "k" abc) "k"))) as Hs
    by (rewrite zs_store_of; simpl; solve_NoDup).
  assert ((2, "b"%string) ∈ zs (store_of "k" abc) "k") as Hin.
  { rewrite zs_store_of. apply elem_of_cons. right.
    apply elem_of_cons. by left. }
  split; [reflexivity|]. split; [exact Hs|]. split; [exact Hin|].
  exact (get_returns_the_stored_payload (text_engine 10 false) "k" 2 "b"
           (store_of "k" abc) eq_refl Hs Hin).
Defined.

(** X8: In numpy mode [get] returns [None] whatever is stored. *)
Theorem get_in_numpy_mode_returns_none self name t r :
  use_numpy self = true → (get self name t r).1 = Ok PyNone.
Proof.
  intros Hn. rewrite get_run. simpl. rewrite Hn.
  by destruct ((rangebyscore (zs r name) (Score t) (Score t)).*2).
Qed.

Lemma get_in_numpy_mode_returns_none_witness :
  use_numpy (text_engine 10 true) = true ∧
  (get (text_engine 10 true) "k" 2 (store_of "k" abc)).1 = Ok PyNone.
Proof.
  split; [reflexivity|].
  exact (get_in_numpy_mode_returns_none (text_engine 10 true) "k" 2
           (store_of "k" abc) eq_refl).
Defined.

(** *** [delete] *)

Lemma in_remrangebyscore z lo hi e :
  e ∈ remrangebyscore z lo hi ↔ e ∈ z ∧ in_range lo hi e = false.
Proof.
  unfold remrangebyscore.
  rewrite !list_elem_of_In, filter_In, negb_true_iff. done.
Qed.

Lemma rangebyscore_remrangebyscore z lo hi :
  rangebyscore (remrangebyscore z lo hi) lo hi = [].
Proof.
  unfold rangebyscore, remrangebyscore.
  induction z as [|x z IH]; simpl; [done|].
  destruct (in_range lo hi x) eqn:E; simpl; [done|]. by rewrite E.
Qed.

(** X9: When at least one bound is given and non-zero, [delete] removes
    exactly the elements whose score lies in the inclusive range, keeps
    the others in their order, returns the number removed, and leaves no
    element in the range. *)
Theorem delete_range_removes_exactly self name t0 t1 r :
  truthy t0 || truthy t1 = true →
  let lo := as_min t0 in
  let hi := as_max t1 in
  let z := zs r name in
  let out := delete self name t0 t1 r in
  out.1 = Ok (Z.of_nat (length (rangebyscore z lo hi))) ∧
  (∀ e, e ∈ zs out.2 name ↔ e ∈ z ∧ in_range lo hi e = false) ∧
  zs out.2 name `sublist_of` z ∧
  rangebyscore (zs out.2 name) lo hi = [] ∧
  calls out.2 = calls r ++ [ZREMRANGEBYSCORE name lo hi].
Proof.
  intros Ht lo hi z out. subst lo hi z out.
  destruct (delete_with_range self name t0 t1 r Ht) as [Hz Hres].
  rewrite Hz. split; [exact Hres|]. split; [|split; [|split]].
  - intros e. apply in_remrangebyscore.
  - apply filter_sublist.
  - apply rangebyscore_remrangebyscore.
  - unfold delete, client.zremrangebyscore. rewrite Ht. by run_io.
Qed.

Lemma delete_range_removes_exactly_witness :
  let out := delete (text_engine 10 false) "k" (Some 2) None
               (store_of "k" abc) in
  truthy (Some 2) || truthy None = true ∧
  out.1 = Ok 2 ∧
  zs out.2 "k" = [(1, "a"%string)].
Proof.
  destruct (delete_range_removes_exactly (text_engine 10 false) "k"
              (Some 2) None (store_of "k" abc) eq_refl) as (H1 & _).
  split; [reflexivity|]. split; [exact H1|]. reflexivity.
Defined.

(** X10: With no bound given (or only zero bounds) [delete] removes the key:
    the series is gone, the result is the number of keys removed, one when
    the key existed and zero otherwise, and only DEL is sent. *)
Theorem delete_without_range_removes_the_key self name t0 t1 r :
  truthy t0 || truthy t1 = false →
  let out := delete self name t0 t1 r in
  db out.2 !! name = None ∧
  zs out.2 name = [] ∧
  out.1 = Ok (match db r !! name with Some _ => 1 | None => 0 end) ∧
  calls out.2 = calls r ++ [DEL [name]].
Proof.
  intros Ht out. subst out. unfold delete, client.delete. rewrite Ht.
  run_io. split; [by rewrite lookup_delete_eq|].
  split; [unfold zs, keyset; simpl; by rewrite lookup_delete_eq|].
  split; [|done]. f_equal.
  by destruct (db r !! name).
Qed.

Lemma delete_without_range_removes_the_key_witness :
  let out := delete (text_engine 10 false) "k" None None (store_of "k" abc) in
  truthy None || truthy None = false ∧
  zs out.2 "k" = [] ∧ out.1 = Ok 1.
Proof.
  destruct (delete_without_range_removes_the_key (text_engine 10 false) "k"
              None None (store_of "k" abc) eq_refl) as (_ & H2 & H3 & _).
  split; [reflexivity|]. split; [exact H2|exact H3].
Defined.

Lemma remrangebyscore_zinsert_fresh t m z :
  has_score t z = false →
  remrangebyscore (zinsert (t, m) z) (Score t) (Score t) = z.
Proof.
  unfold remrangebyscore. induction z as [|x z IH]; simpl.
  - intros _. rewrite in_range_at. simpl. by rewrite Z.eqb_refl.
  - intros H. apply orb_false_iff in H as [Hx Hz].
    destruct (entry_ltb (t, m) x); simpl.
    + rewrite !in_range_at. simpl. rewrite Z.eqb_refl, Hx. simpl. f_equal.
      clear IH Hx. induction z as [|y z IH]; simpl; [done|].
      simpl in Hz. apply orb_false_iff in Hz as [Hy Hz].
      rewrite in_range_at, Hy. simpl. f_equal. by apply IH.
    + rewrite in_range_at, Hx. simpl. f_equal. by apply IH.
Qed.

(** X5: Insert and delete are inverse away from capacity: after [add] of a
    new payload at a new non-zero timestamp, [delete] over just that
    timestamp removes one element and the series is exactly as before. *)
Theorem add_then_delete_restores_the_series self name t data r :
  t ≠ 0 →
  has_score t (zs r name) = false →
  is_member (dumps (serializer self) data) (zs r name) = false →
  Z.of_nat (length (zs r name)) ≠ max_length self →
  let out := delete self name (Some t) (Some t) (add self name t data r).2 in
  out.1 = Ok 1 ∧ zs out.2 name = zs r name.
Proof.
  intros Ht Hs Hm Hl out. subst out.
  assert (truthy (Some t) || truthy (Some t) = true) as Htr.
  { simpl. assert ((t =? 0) = false) as -> by lia. done. }
  destruct (delete_with_range self name (Some t) (Some t)
              (add self name t data r).2 Htr) as [Hz Hres].
  rewrite add_zs in Hz, Hres. rewrite add_step_new in Hz, Hres by done.
  simpl in Hz, Hres. split.
  - rewrite Hres. by rewrite (rangebyscore_zinsert_fresh _ _ _ Hs).
  - rewrite Hz. by apply remrangebyscore_zinsert_fresh.
Qed.

Lemma add_then_delete_restores_the_series_witness :
  let e := text_engine 10 false in
  let r := store_of "k" abc in
  let out := delete e "k" (Some 7) (Some 7) (add e "k" 7 (PyStr "d") r).2 in
  has_score 7 (zs r "k") = false ∧
  is_member "d" (zs r "k") = false ∧
  out.1 = Ok 1 ∧ zs out.2 "k" = zs r "k".
Proof.
  assert (Z.of_nat (length (zs (store_of "k" abc) "k"))
          ≠ max_length (text_engine 10 false)) as Hl
    by (rewrite zs_store_of; simpl; lia).
  split; [reflexivity|]. split; [reflexivity|].
  apply (add_then_delete_restores_the_series (text_engine 10 false) "k" 7
           (PyStr "d") (store_of "k" abc)); [lia|reflexivity|reflexivity|].
  exact Hl.
Defined.

End read_and_delete_properties.

Section locality_and_trim.

Import RedisSampleTimeSeries.

Implicit Types (self : engine) (r : redis) (name other : string) (z : zset).

Lemma keyset_delete_ne (d : gmap string zset) name other :
  name ≠ other → keyset (base.delete name d) other = keyset d other.
Proof. intros Hne. unfold keyset. by rewrite lookup_delete_ne. Qed.

Lemma add_other_series self name other t data r :
  name ≠ other → zs (add self name t data r).2 other = zs r other.
Proof.
  intros Hne. rewrite add_run. unfold zs. simpl.
  destruct (has_score t (keyset (db r) name)); [done|].
  by apply keyset_put_ne.
Qed.

Lemma delete_other_series self name other t0 t1 r :
  name ≠ other → zs (delete self name t0 t1 r).2 other = zs r other.
Proof.
  intros Hne. unfold delete, client.zremrangebyscore, client.delete.
  destruct (truthy t0 || truthy t1); run_io; unfold zs; simpl.
  - by apply keyset_put_ne.
  - by apply keyset_delete_ne.
Qed.

Lemma trim_other_series self name other L r :
  name ≠ other → zs (trim self name L r).2 other = zs r other.
Proof.
  intros Hne.
  unfold trim, RedisTSBase.length, client.zcard, client.zremrangebyrank.
  run_io. unfold zs.
  destruct ((L <? Z.of_nat (length (keyset (db r) name))) && (0 <? L)); simpl.
  - by apply keyset_put_ne.
  - destruct (Z.of_nat (length (keyset (db r) name)) <=? L); simpl; [|done].
    unfold delete, client.delete. run_io. by apply keyset_delete_ne.
Qed.

Lemma add_many_chunks_other_series self name other items r :
  name ≠ other →
  Forall (λ c, c ≠ []) items →
  zs (for_each items (add_many_chunk_body self name) r).2 other = zs r other.
Proof.
  intros Hne Hall. revert r.
  induction Hall as [|c items Hc Hall IH]; intros r; [done|].
  rewrite (for_each_cons_ok _ _ _ _ _ (add_many_chunk self name c r Hc)).
  rewrite IH. unfold zs. simpl. by apply keyset_put_ne.
Qed.

Lemma add_many_other_series self name other pairs chunks_size r :
  name ≠ other →
  zs (add_many self name pairs chunks_size r).2 other = zs r other.
Proof.
  intros Hne. unfold add_many, RedisTSBase.validate_key. run_io.
  destruct (_ || _); [done|]. simpl.
  destruct (add_many_validate self name pairs) as [batch|e]; [|done].
  apply (add_many_chunks_other_series self name other
           (utils.chunks batch chunks_size) r Hne (chunks_nonempty _ _)).
Qed.

(** X12: Every write of the engine is local to its series: [add], [add_many],
    [delete] and [trim] on one name leave the series stored under any
    other name exactly as it was. *)
Theorem writes_leave_other_series self name other r :
  name ≠ other →
  (∀ t data, zs (add self name t data r).2 other = zs r other) ∧
  (∀ pairs chunks_size,
     zs (add_many self name pairs chunks_size r).2 other = zs r other) ∧
  (∀ t0 t1, zs (delete self name t0 t1 r).2 other = zs r other) ∧
  (∀ L, zs (trim self name L r).2 other = zs r other).
Proof.
  intros Hne. split; [|split; [|split]]; intros.
  - by apply add_other_series.
  - by apply add_many_other_series.
  - by apply delete_other_series.
  - by apply trim_other_series.
Qed.

Lemma writes_leave_other_series_witness :
  let e := text_engine 10 false in
  let r := store_of "k" abc in
  "j"%string ≠ "k"%string ∧
  zs (add e "j" 1 (PyStr "x") r).2 "k" = abc ∧
  zs (delete e "j" None None r).2 "k" = abc ∧
  zs (trim e "j" 5 r).2 "k" = abc.
Proof.
  assert ("j"%string ≠ "k"%string) as Hne by discriminate.
  destruct (writes_leave_other_series (text_engine 10 false) "j" "k"
              (store_of "k" abc) Hne) as (H1 & _ & H3 & H4).
  split; [exact Hne|]. split; [|split].
  - rewrite H1. apply zs_store_of.
  - rewrite H3. apply zs_store_of.
  - rewrite H4. apply zs_store_of.
Defined.

(** X13: [trim] is cumulative, not idempotent: trimming twice with the same
    length [L] removes the [2 * L] oldest elements when the series holds
    more than that. *)
Theorem trim_twice_removes_twice self name L r :
  0 < L →
  2 * L < Z.of_nat (length (zs r name)) →
  zs (trim self name L (trim self name L r).2).2 name =
  drop (Z.to_nat (2 * L)) (zs r name).
Proof.
  intros H0 Hl. rewrite trim_run. simpl. rewrite trim_run. simpl.
  assert ((L <? Z.of_nat (length (zs r name))) && (0 <? L) = true)
    as -> by lia.
  rewrite remrangebyrank_prefix by lia.
  rewrite length_drop.
  assert (L < Z.of_nat (length (zs r name) - Z.to_nat L)) as Hl' by lia.
  assert ((L <? Z.of_nat (length (zs r name) - Z.to_nat L)) && (0 <? L) = true)
    as -> by (apply andb_true_iff; split; apply Z.ltb_lt; lia).
  rewrite remrangebyrank_prefix by (rewrite ?length_drop; lia).
  rewrite drop_drop. f_equal. lia.
Qed.

Lemma trim_twice_removes_twice_witness :
  let e := text_engine 10 false in
  let r := store_of "k" abc in
  2 * 1 < Z.of_nat (length (zs r "k")) ∧
  zs (trim e "k" 1 (trim e "k" 1 r).2).2 "k" = [(3, "c"%string)].
Proof.
  assert (2 * 1 < Z.of_nat (length (zs (store_of "k" abc) "k"))) as Hl
    by (rewrite zs_store_of; simpl; lia).
  split; [exact Hl|].
  rewrite (trim_twice_removes_twice (text_engine 10 false) "k" 1
             (store_of "k" abc)); [|lia|exact Hl].
  by rewrite zs_store_of.
Defined.

End locality_and_trim.

Section remove_many_properties.

Import RedisSampleTimeSeries.

Implicit Types (self : engine) (r : redis) (name k : string) (z : zset).

Lemma lookup_foldr_delete (d : gmap string zset) (ks : list string) k :
  foldr base.delete d ks !! k = if bool_decide (k ∈ ks) then None else d !! k.
Proof.
  induction ks as [|x ks IH]; cbn [foldr].
  - case_bool_decide as H; [|done]. exfalso. by eapply not_elem_of_nil.
  - destruct (decide (x = k)) as [->|Hne].
    + rewrite lookup_delete_eq. clear IH. case_bool_decide as H; [done|].
      exfalso. apply H. apply elem_of_cons. by left.
    + rewrite lookup_delete_ne by done. rewrite IH. clear IH.
      repeat case_bool_decide; try done.
      * exfalso. apply H0. apply elem_of_cons. by right.
      * exfalso. apply elem_of_cons in H0 as [?|?]; congruence.
Qed.

Lemma remove_keys_run (cs : list (list string)) r :
  let out := for_each cs (λ chunk_keys, client.delete chunk_keys;; mret tt) r in
  out.1 = Ok tt ∧
  ∀ k, db out.2 !! k =
       if bool_decide (k ∈ concat cs) then None else db r !! k.
Proof.
  revert r. induction cs as [|c cs IH]; intros r.
  - cbn [for_each concat]. split; [done|]. intros k.
    case_bool_decide as H; [|done]. exfalso. by eapply not_elem_of_nil.
  - set (body := λ chunk_keys : list string,
                   client.delete chunk_keys;; mret tt) in *.
    assert (body c r =
            (Ok tt, {| db := foldr base.delete (db r) c;
                       calls := calls r ++ [DEL c] |})) as Hstep.
    { subst body. unfold client.delete. by run_io. }
    rewrite (for_each_cons_ok c cs body r _ Hstep).
    destruct (IH {| db := foldr base.delete (db r) c;
                    calls := calls r ++ [DEL c] |}) as [H1 H2].
    split; [exact H1|]. intros k. rewrite H2. simpl.
    rewrite lookup_foldr_delete. clear IH H2 Hstep.
    cbn [concat].
    repeat case_bool_decide; try done.
    all: exfalso; rewrite elem_of_app in *; tauto.
Qed.

(** X14: Without a (non-zero) bound [remove_many] deletes whole keys: every
    listed key is absent afterwards and every key not listed is bound to
    what it was bound to before. *)
Theorem remove_many_deletes_the_listed_keys self names t0 t1 r :
  truthy t0 || truthy t1 = false →
  let out := remove_many self names t0 t1 r in
  out.1 = Ok tt ∧
  (∀ k, k ∈ names → db out.2 !! k = None ∧ zs out.2 k = []) ∧
  (∀ k, k ∉ names → db out.2 !! k = db r !! k ∧ zs out.2 k = zs r k).
Proof.
  intros Ht out. subst out. unfold remove_many. rewrite Ht.
  cbv beta iota zeta.
  match goal with
  | |- context [for_each ?cs ?b r] => set (out := for_each cs b r)
  end.
  destruct (remove_keys_run (utils.chunks names 10000) r) as [H1 H2].
  rewrite chunks_concat in H2 by lia.
  assert (∀ k, db out.2 !! k =
               if bool_decide (k ∈ names) then None else db r !! k) as H2'
    by exact H2.
  split; [exact H1|]. split; intros k Hk.
  - assert (db out.2 !! k = None) as Hnone.
    { rewrite H2'. by rewrite bool_decide_eq_true_2. }
    split; [exact Hnone|]. unfold zs, keyset, zset in *. by rewrite Hnone.
  - assert (db out.2 !! k = db r !! k) as Hsame.
    { rewrite H2'. by rewrite bool_decide_eq_false_2. }
    split; [exact Hsame|]. unfold zs, keyset, zset in *. by rewrite Hsame.
Qed.

Lemma remove_many_deletes_the_listed_keys_witness :
  let e := text_engine 10 false in
  let r := (add e "j" 4 (PyStr "x") (store_of "k" abc)).2 in
  let out := remove_many e ["j"%string] None None r in
  truthy None || truthy None = false ∧
  out.1 = Ok tt ∧ zs out.2 "j" = [] ∧ zs out.2 "k" = abc.
Proof.
  destruct (remove_many_deletes_the_listed_keys (text_engine 10 false)
              ["j"%string] None None
              (add (text_engine 10 false) "j" 4 (PyStr "x")
                 (store_of "k" abc)).2 eq_refl) as (H1 & H2 & H3).
  split; [reflexivity|]. split; [exact H1|]. split.
  - apply H2. apply elem_of_cons. by left.
  - destruct (H3 "k"%string) as [_ ->]; [|reflexivity].
    intros Hin. apply elem_of_cons in Hin as [Hin|Hin]; [discriminate|].
    by apply elem_of_nil in Hin.
Defined.

Lemma remrangebyscore_idemp z lo hi :
  remrangebyscore (remrangebyscore z lo hi) lo hi = remrangebyscore z lo hi.
Proof.
  unfold remrangebyscore. induction z as [|x z IH]; simpl; [done|].
  destruct (in_range lo hi x) eqn:E; simpl; [done|].
  rewrite E. simpl. by f_equal.
Qed.

Lemma remove_range_run self (ns : list string) t0 t1 r :
  truthy t0 || truthy t1 = true →
  let out :=
    for_each ns (λ name, delete self name t0 t1;; mret tt) r in
  out.1 = Ok tt ∧
  ∀ k, zs out.2 k =
       if bool_decide (k ∈ ns)
       then remrangebyscore (zs r k) (as_min t0) (as_max t1)
       else zs r k.
Proof.
  intros Ht. revert r. induction ns as [|n ns IH]; intros r.
  - cbn [for_each]. split; [done|]. intros k.
    case_bool_decide as H; [|done]. exfalso. by eapply not_elem_of_nil.
  - set (body := λ name : string, delete self name t0 t1;; mret tt) in *.
    set (r1 := {| db := put (db r) n
                          (remrangebyscore (zs r n) (as_min t0) (as_max t1));
                  calls := calls r ++
                    [ZREMRANGEBYSCORE n (as_min t0) (as_max t1)] |}).
    assert (body n r = (Ok tt, r1)) as Hstep.
    { subst body r1. unfold delete, client.zremrangebyscore.
      rewrite Ht. by run_io. }
    rewrite (for_each_cons_ok n ns body r _ Hstep).
    destruct (IH r1) as [H1 H2].
    split; [exact H1|]. intros k. rewrite H2. clear IH H2.
    destruct (decide (n = k)) as [->|Hne].
    + assert (zs r1 k = remrangebyscore (zs r k) (as_min t0) (as_max t1))
        as -> by apply keyset_put.
      rewrite remrangebyscore_idemp.
      repeat case_bool_decide; try done.
      all: exfalso;
        match goal with
        | H : ¬ _ |- _ => apply H; apply elem_of_cons; by left
        end.
    + assert (zs r1 k = zs r k) as -> by (by apply keyset_put_ne).
      repeat case_bool_decide; try done.
      all: exfalso;
        first
          [ match goal with
            | H : ¬ _ |- _ => apply H; apply elem_of_cons; by right
            end
          | match goal with
            | H : _ ∈ _ :: _ |- _ =>
                apply elem_of_cons in H as [?|?]; congruence
            end ].
Qed.

Lemma for_each_nested {A} (cs : list (list A)) (body : A → io unit) r :
  for_each cs (λ c, for_each c body) r = for_each (concat cs) body r.
Proof.
  revert r. induction cs as [|c cs IH]; intros r; [done|].
  cbn [for_each concat]. unfold mbind, io_bind, bind.
  revert r. induction c as [|x c IHc]; intros r.
  - simpl. unfold mret, io_ret, ret. apply IH.
  - cbn [for_each app]. unfold mbind, io_bind, bind.
    destruct (body x r) as [[[]|e] r']; [|done].
    apply IHc.
Qed.

(** X15: With a (non-zero) bound [remove_many] range-deletes each listed
    series: a listed series loses exactly its elements in the inclusive
    range, and every other series is unchanged. *)
Theorem remove_many_range_deletes_each_series self names t0 t1 r :
  truthy t0 || truthy t1 = true →
  let out := remove_many self names t0 t1 r in
  out.1 = Ok tt ∧
  (∀ k, k ∈ names →
        zs out.2 k = remrangebyscore (zs r k) (as_min t0) (as_max t1)) ∧
  (∀ k, k ∉ names → zs out.2 k = zs r k).
Proof.
  intros Ht out. subst out. unfold remove_many. rewrite Ht. cbv beta iota zeta.
  rewrite for_each_nested, chunks_concat by lia.
  destruct (remove_range_run self names t0 t1 r Ht) as [H1 H2].
  split; [exact H1|]. split; intros k Hk; rewrite H2.
  - by rewrite bool_decide_eq_true_2.
  - by rewrite bool_decide_eq_false_2.
Qed.

Lemma remove_many_range_deletes_each_series_witness :
  let e := text_engine 10 false in
  let out := remove_many e ["k"%string] (Some 2) (Some 3) (store_of "k" abc) in
  truthy (Some 2) || truthy (Some 3) = true ∧
  out.1 = Ok tt ∧ zs out.2 "k" = [(1, "a"%string)].
Proof.
  destruct (remove_many_range_deletes_each_series (text_engine 10 false)
              ["k"%string] (Some 2) (Some 3) (store_of "k" abc) eq_refl)
    as (H1 & H2 & _).
  split; [reflexivity|]. split; [exact H1|].
  rewrite H2 by (apply elem_of_cons; by left).
  by rewrite zs_store_of.
Defined.

End remove_many_properties.

Section get_slice_properties.

Import RedisSampleTimeSeries.

Implicit Types (self : engine) (r : redis) (name : string) (z : zset).

Lemma decode_page_timestamps self results p :
  decode_page self results = Ok p → p.*1 = results.*2.
Proof.
  revert p. induction results as [|[data t] results IH]; intros p; simpl.
  - by intros [= <-].
  - destruct (loads (serializer self) data); [|done].
    destruct (decode_page self results) as [q|]; [|done].
    intros [= <-]. simpl. f_equal. by apply IH.
Qed.

Lemma zrange_func_db asc name lo hi start num r :
  ∃ results, zrange_func asc name lo hi start num r = (Ok results, {|
    db := db r;
    calls := calls r ++
      [if asc then ZRANGEBYSCORE name lo hi (Some (start, num))
       else ZREVRANGEBYSCORE name hi lo (Some (start, num))] |}).
Proof.
  unfold zrange_func, client.zrangebyscore_withscores,
    client.zrevrangebyscore_withscores.
  destruct asc; by eexists.
Qed.

Lemma paged_loop_db self name lo hi asc cs rest i index r :
  db (paged_loop self name lo hi asc cs rest i index r).2 = db r.
Proof.
  revert i r. induction rest as [|rest IH]; intros i r; [done|].
  cbn [paged_loop]. unfold mbind, io_bind, bind.
  destruct (i =? 0).
  - unfold mret, io_ret, ret.
    destruct (zrange_func_db asc name lo hi 0 cs r) as [res ->].
    destruct (use_numpy self); [by rewrite IH|].
    unfold lift. by destruct (decode_page self res).
  - unfold lift. destruct (index_plus_one index) as [start|e]; [|done].
    destruct (zrange_func_db asc name lo hi start cs r) as [res ->].
    destruct (use_numpy self); [by rewrite IH|].
    by destruct (decode_page self res).
Qed.

(** X16: [get_slice] never changes the store, whatever frame it is resumed
    from and whatever is sent to it. *)
Theorem get_slice_never_writes self name t0 t1 lim asc cs frame sent r :
  db (get_slice self name t0 t1 lim asc cs frame sent r).2 = db r.
Proof.
  unfold get_slice. destruct frame as [|rest i index|].
  - unfold RedisTSBase.count, client.zcount. run_io.
    match goal with |- context [cs <? ?t] => destruct (cs <? t) end.
    + destruct (cs =? 0); [done|]. by rewrite paged_loop_db.
    + destruct (zrange_func_db asc name (as_min t0) (as_max t1) 0 (-1)
                  {| db := db r;
                     calls := calls r ++
                       [ZCOUNT name (as_min t0) (as_max t1)] |})
        as [res ->].
      destruct (use_numpy self); [done|].
      by destruct (decode_page self res).
  - unfold lift, client.zrank. run_io.
    destruct (subscript_last sent); [|done]. by rewrite paged_loop_db.
  - done.
Qed.

Lemma get_slice_single_page_run
    self name t0 t1 lim (asc : bool) cs r fuel p :
  use_numpy self = false →
  let matching := rangebyscore (zs r name) (as_min t0) (as_max t1) in
  let ordered := if asc then matching else rev matching in
  Z.of_nat (length matching) ≤ cs →
  decode_page self ((λ e : entry, (e.2, e.1)) <$> ordered) = Ok p →
  (iterate (S (S fuel)) (get_slice self name t0 t1 lim asc cs) SliceStart r).1
    = ([p], Exhausted) ∧
  p.*1 = scores ordered ∧
  length p = length matching.
Proof.
  intros Hn matching ordered Hfit Hp.
  assert (get_slice self name t0 t1 lim asc cs SliceStart PyNone r =
          (Ok (Some (p, SliceSingle)),
           {| db := db r;
              calls := (calls r ++ [ZCOUNT name (as_min t0) (as_max t1)]) ++
                [if asc
                 then ZRANGEBYSCORE name (as_min t0) (as_max t1)
                        (Some (0, -1))
                 else ZREVRANGEBYSCORE name (as_max t1) (as_min t0)
                        (Some (0, -1))] |})) as Hfirst.
  { unfold get_slice, RedisTSBase.count, client.zcount. run_io.
    fold (zs r name). fold matching.
    assert ((cs <? Z.of_nat (length matching)) = false) as -> by lia.
    unfold zrange_func, client.zrangebyscore_withscores,
      client.zrevrangebyscore_withscores.
    subst ordered. destruct asc; run_io; rewrite Hn; unfold limit; simpl;
      rewrite drop_0; fold (zs r name); fold matching; by rewrite Hp. }
  cbn [iterate]. rewrite Hfirst. simpl. split; [done|]. split.
  - rewrite (decode_page_timestamps _ _ _ Hp). unfold scores.
    rewrite <- list_fmap_compose. done.
  - rewrite (decode_page_length _ _ _ Hp), length_fmap.
    subst ordered. destruct asc; [done|apply length_rev].
Qed.

(** X17: When the matching elements fit in one page, iterating [get_slice] in
    object mode yields exactly one page and stops: the page holds every
    matching element, in rank order when ascending and in reverse rank
    order when descending. *)
Theorem get_slice_single_page_holds_all
    self name t0 t1 lim (asc : bool) cs r fuel p :
  use_numpy self = false →
  let matching := rangebyscore (zs r name) (as_min t0) (as_max t1) in
  let ordered := if asc then matching else rev matching in
  Z.of_nat (length matching) ≤ cs →
  decode_page self ((λ e : entry, (e.2, e.1)) <$> ordered) = Ok p →
  (iterate (S (S fuel)) (get_slice self name t0 t1 lim asc cs) SliceStart r).1
    = ([p], Exhausted) ∧
  p.*1 = scores ordered ∧
  length p = length matching.
Proof. apply get_slice_single_page_run. Qed.

Lemma get_slice_single_page_holds_all_witness :
  let e := text_engine 10 false in
  let r := store_of "k" abc in
  use_numpy e = false ∧
  Z.of_nat (length (rangebyscore (zs r "k") (Score 2) PosInf)) ≤ 5 ∧
  (iterate 2 (get_slice e "k" (Some 2) None None false 5) SliceStart r).1
    = ([[(3, PyStr "c"); (2, PyStr "b")]], Exhausted).
Proof.
  assert (Z.of_nat (length (rangebyscore (zs (store_of "k" abc) "k")
                              (as_min (Some 2)) (as_max None))) ≤ 5) as Hfit
    by (rewrite zs_store_of; simpl; lia).
  split; [reflexivity|]. split; [exact Hfit|].
  apply (get_slice_single_page_holds_all (text_engine 10 false) "k"
           (Some 2) None None false 5 (store_of "k" abc) 0
           [(3, PyStr "c"); (2, PyStr "b")] eq_refl Hfit).
  reflexivity.
Defined.

(** X18: A page size of zero with at least one matching element makes
    [get_slice] raise [ZeroDivisionError] before it yields anything. *)
Theorem get_slice_zero_page_size_raises self name t0 t1 lim asc r fuel :
  rangebyscore (zs r name) (as_min t0) (as_max t1) ≠ [] →
  (iterate (S fuel) (get_slice self name t0 t1 lim asc 0) SliceStart r).1
    = ([], Failed ZeroDivisionError).
Proof.
  intros Hne. cbn [iterate].
  unfold get_slice, RedisTSBase.count, client.zcount. run_io.
  fold (zs r name).
  destruct (rangebyscore (zs r name) (as_min t0) (as_max t1)); [done|].
  done.
Qed.

Lemma get_slice_zero_page_size_raises_witness :
  rangebyscore (zs (store_of "k" abc) "k") (as_min None) (as_max None) ≠ [] ∧
  (iterate 1 (get_slice (text_engine 10 false) "k" None None None true 0)
     SliceStart (store_of "k" abc)).1
    = ([], Failed ZeroDivisionError).
Proof.
  assert (rangebyscore (zs (store_of "k" abc) "k")
            (as_min None) (as_max None) ≠ []) as Hne
    by (rewrite zs_store_of; discriminate).
  split; [exact Hne|].
  exact (get_slice_zero_page_size_raises (text_engine 10 false) "k"
           None None None true (store_of "k" abc) 0 Hne).
Defined.

(** X19: A negative page size makes [get_slice] end without yielding a page,
    whatever the series holds. *)
Theorem get_slice_negative_page_size_yields_nothing
    self name t0 t1 lim asc cs r fuel :
  cs < 0 →
  (iterate (S fuel) (get_slice self name t0 t1 lim asc cs) SliceStart r).1
    = ([], Exhausted).
Proof.
  intros Hcs. cbn [iterate].
  unfold get_slice, RedisTSBase.count, client.zcount. run_io.
  set (total := Z.of_nat (length (rangebyscore (keyset (db r) name)
                                    (as_min t0) (as_max t1)))).
  assert (0 ≤ total) as Htotal by (subst total; lia).
  clearbody total.
  assert ((cs <? total) = true) as -> by (apply Z.ltb_lt; lia).
  assert ((cs =? 0) = false) as -> by (apply Z.eqb_neq; lia).
  assert (Z.to_nat (total `quot` cs) = 0%nat) as ->; [|done].
  assert (total `quot` cs ≤ 0); [|lia].
  rewrite <- (Z.opp_involutive cs), Z.quot_opp_r by lia.
  assert (0 ≤ total `quot` (- cs)); [|lia].
  apply Z.quot_pos; lia.
Qed.

Lemma get_slice_negative_page_size_yields_nothing_witness :
  -1 < 0 ∧
  (iterate 1 (get_slice (text_engine 10 false) "k" None None None true (-1))
     SliceStart (store_of "k" abc)).1
    = ([], Exhausted).
Proof.
  split; [lia|].
  apply (get_slice_negative_page_size_yields_nothing (text_engine 10 false)
           "k" None None None true (-1) (store_of "k" abc) 0).
  lia.
Defined.

End get_slice_properties.

Section composed_properties.

Import RedisSampleTimeSeries.

Implicit Types (self : engine) (r : redis) (name : string) (z : zset).

Lemma paged_loop_numpy self name lo hi asc cs rest i index r :
  use_numpy self = true →
  ∀ p frame,
    (paged_loop self name lo hi asc cs rest i index r).1 ≠ Ok (Some (p, frame)).
Proof.
  intros Hn. revert i r. induction rest as [|rest IH]; intros i r p frame.
  - done.
  - cbn [paged_loop]. unfold mbind, io_bind, bind.
    destruct (i =? 0).
    + unfold mret, io_ret, ret.
      destruct (zrange_func_db asc name lo hi 0 cs r) as [res ->].
      rewrite Hn. apply IH.
    + unfold lift. destruct (index_plus_one index) as [start|e]; [|done].
      destruct (zrange_func_db asc name lo hi start cs r) as [res ->].
      rewrite Hn. apply IH.
Qed.

(** X20: In numpy mode [get_slice] never yields a page. *)
Theorem get_slice_in_numpy_mode_yields_nothing
    self name t0 t1 lim asc cs r fuel :
  use_numpy self = true →
  (iterate fuel (get_slice self name t0 t1 lim asc cs) SliceStart r).1.1 = [].
Proof.
  intros Hn. destruct fuel as [|fuel]; [done|]. cbn [iterate].
  destruct (get_slice self name t0 t1 lim asc cs SliceStart PyNone r)
    as [[[[p frame]|]|e] r'] eqn:E; [|done|done].
  exfalso. revert E.
  unfold get_slice, RedisTSBase.count, client.zcount. run_io.
  match goal with |- context [cs <? ?t] => destruct (cs <? t) end.
  - destruct (cs =? 0); [done|]. intros E.
    by eapply (paged_loop_numpy self name _ _ asc cs _ 0 Unbound _ Hn p frame);
      rewrite E.
  - match goal with
    | |- context [zrange_func asc name ?lo ?hi 0 (-1) ?r0] =>
        destruct (zrange_func_db asc name lo hi 0 (-1) r0) as [res ->]
    end.
    by rewrite Hn.
Qed.

Lemma get_slice_in_numpy_mode_yields_nothing_witness :
  use_numpy (text_engine 10 true) = true ∧
  (iterate 3 (get_slice (text_engine 10 true) "k" None None None true 2)
     SliceStart (store_of "k" abc)).1.1 = [].
Proof.
  split; [reflexivity|].
  exact (get_slice_in_numpy_mode_yields_nothing (text_engine 10 true) "k"
           None None None true 2 (store_of "k" abc) 3 eq_refl).
Defined.

(** X11: Range delete is complete: after [delete] with a (non-zero) bound, a
    scan of the same range in object mode yields a single empty page. *)
Theorem delete_then_get_slice_is_empty
    self name t0 t1 lim (asc : bool) cs r fuel :
  truthy t0 || truthy t1 = true →
  use_numpy self = false →
  0 ≤ cs →
  (iterate (S (S fuel)) (get_slice self name t0 t1 lim asc cs) SliceStart
     (delete self name t0 t1 r).2).1
  = ([[]], Exhausted).
Proof.
  intros Ht Hn Hcs.
  destruct (delete_with_range self name t0 t1 r Ht) as [Hz _].
  pose proof (rangebyscore_remrangebyscore (zs r name) (as_min t0)
                (as_max t1)) as Hempty.
  rewrite <- Hz in Hempty.
  apply (get_slice_single_page_run self name t0 t1 lim asc cs
           (delete self name t0 t1 r).2 fuel [] Hn).
  - rewrite Hempty. simpl. lia.
  - rewrite Hempty. by destruct asc.
Qed.

Lemma delete_then_get_slice_is_empty_witness :
  let e := text_engine 10 false in
  truthy (Some 1) || truthy (Some 2) = true ∧
  (iterate 2 (get_slice e "k" (Some 1) (Some 2) None true 5) SliceStart
     (delete e "k" (Some 1) (Some 2) (store_of "k" abc)).2).1
  = ([[]], Exhausted).
Proof.
  split; [reflexivity|].
  apply (delete_then_get_slice_is_empty (text_engine 10 false) "k"
           (Some 1) (Some 2) None true 5 (store_of "k" abc) 0);
    [reflexivity|reflexivity|lia].
Defined.

(** *** [add_many] *)

(** X21: [add_many] validates before it writes: a rejected key or a rejected
    batch makes it raise with the store, and the log of commands sent,
    exactly as they were. *)
Theorem add_many_validates_before_writing self name pairs chunks_size r :
  (RedisTSBase.validate_key name r).1 ≠ Ok tt ∨
  (∃ e, add_many_validate self name pairs = Raise e) →
  ∃ e, add_many self name pairs chunks_size r = (Raise e, r).
Proof.
  unfold add_many, RedisTSBase.validate_key. run_io.
  destruct (_ || _); simpl.
  - intros _. by eexists.
  - intros [Hk|[e He]]; [done|]. rewrite He. by eexists.
Qed.

Lemma add_many_validates_before_writing_witness :
  (RedisTSBase.validate_key "s:HASH" (store_of "k" abc)).1 ≠ Ok tt ∧
  ∃ e, add_many (text_engine 10 false) "s:HASH" [(1, PyStr "a")] 2
         (store_of "k" abc) = (Raise e, store_of "k" abc).
Proof.
  assert ((RedisTSBase.validate_key "s:HASH" (store_of "k" abc)).1 ≠ Ok tt)
    as Hk by discriminate.
  split; [exact Hk|].
  apply (add_many_validates_before_writing (text_engine 10 false) "s:HASH"
           [(1, PyStr "a")] 2 (store_of "k" abc)).
  by left.
Defined.

(** X22: The chunk size of [add_many] does not matter to the result: with any
    two positive chunk sizes the call ends the same way and leaves the
    same series. *)
Theorem add_many_chunk_size_is_immaterial self name pairs c1 c2 r :
  0 < c1 → 0 < c2 →
  (add_many self name pairs c1 r).1 = (add_many self name pairs c2 r).1 ∧
  zs (add_many self name pairs c1 r).2 name =
  zs (add_many self name pairs c2 r).2 name.
Proof.
  intros H1 H2.
  unfold add_many, RedisTSBase.validate_key. run_io.
  destruct (_ || _); [done|]. simpl.
  destruct (add_many_validate self name pairs) as [batch|e]; [|done].
  destruct (add_many_chunks self name (utils.chunks batch c1) r
              (chunks_nonempty _ _)) as [A1 B1].
  destruct (add_many_chunks self name (utils.chunks batch c2) r
              (chunks_nonempty _ _)) as [A2 B2].
  rewrite chunks_concat in B1, B2 by done.
  split.
  - transitivity (@Ok unit tt); [exact A1|symmetry; exact A2].
  - transitivity (zadd_all (zs r name) (encode self batch));
      [exact B1|symmetry; exact B2].
Qed.

Lemma add_many_chunk_size_is_immaterial_witness :
  let e := text_engine 10 false in
  let pairs := [(3, PyStr "c"); (1, PyStr "a"); (2, PyStr "b")] in
  0 < 1 ∧ 0 < 2000 ∧
  zs (add_many e "k" pairs 1 empty_store).2 "k" =
  zs (add_many e "k" pairs 2000 empty_store).2 "k".
Proof.
  split; [lia|]. split; [lia|].
  apply (add_many_chunk_size_is_immaterial (text_engine 10 false) "k"
           [(3, PyStr "c"); (1, PyStr "a"); (2, PyStr "b")] 1 2000
           empty_store); lia.
Defined.

End composed_properties.

Section bulk_round_trips.

Import RedisSampleTimeSeries.

Implicit Types (self : engine) (r : redis) (name : string) (z : zset).








End bulk_round_trips.

Section eviction.

Import RedisSampleTimeSeries.

Implicit Types (self : engine) (r : redis) (name : string) (z : zset).

(** X3: Eviction takes the oldest: on a non-empty series at capacity,
    held in rank order as Redis holds it, an [add] of a new timestamp and
    of a payload whose encoding is not a member of the rest of the series
    removes the element of rank 0, whose score is the least of the
    series, and stores the new one, so the length is unchanged. *)
Theorem add_at_capacity_evicts_the_least_score self name t data h tl r :
  zs r name = h :: tl →
  ranked (zs r name) →
  Z.of_nat (length (zs r name)) = max_length self →
  has_score t (zs r name) = false →
  is_member (dumps (serializer self) data) tl = false →
  let z' := zs (add self name t data r).2 name in
  z' ≡ₚ (t, dumps (serializer self) data) :: tl ∧
  length z' = length (zs r name) ∧
  (∀ x, x ∈ zs r name → h.1 ≤ x.1) ∧
  ZREMRANGEBYRANK name 0 0 ∈ calls (add self name t data r).2.
Proof.
  intros Hz Hr Hl Hs Hm z'. subst z'. rewrite add_zs.
  rewrite add_run. simpl. unfold add_calls. rewrite Hs, Hz in *.
  rewrite add_step_at_capacity by done.
  split; [apply zinsert_perm|]. split; [by rewrite zinsert_length|].
  split; [intros x Hx; by apply (ranked_head_least h tl)|].
  assert ((Z.of_nat (length (h :: tl)) =? max_length self) = true)
    as -> by lia.
  rewrite !elem_of_app. right. simpl.
  do 2 (apply elem_of_cons; right). apply elem_of_cons. by left.
Qed.

Lemma add_at_capacity_evicts_the_least_score_witness :
  let e := text_engine 3 false in
  let r := store_of "k" abc in
  let z' := zs (add e "k" 9 (PyStr "z") r).2 "k" in
  zs r "k" = (1, "a"%string) :: [(2, "b"); (3, "c")]%string ∧
  Z.of_nat (length (zs r "k")) = max_length e ∧
  z' ≡ₚ (9, "z"%string) :: [(2, "b"); (3, "c")]%string ∧
  length z' = length (zs r "k").
Proof.
  assert (zs (store_of "k" abc) "k"
          = (1, "a"%string) :: [(2, "b"); (3, "c")]%string) as Hz
    by apply zs_store_of.
  assert (ranked (zs (store_of "k" abc) "k")) as Hr
    by (rewrite zs_store_of; apply ranked_abc).
  assert (Z.of_nat (length (zs (store_of "k" abc) "k"))
          = max_length (text_engine 3 false)) as Hl
    by (rewrite zs_store_of; reflexivity).
  destruct (add_at_capacity_evicts_the_least_score (text_engine 3 false) "k"
              9 (PyStr "z") (1, "a"%string) [(2, "b"); (3, "c")]%string
              (store_of "k" abc) Hz Hr Hl eq_refl eq_refl)
    as (H1 & H2 & _).
  split; [exact Hz|]. split; [exact Hl|]. split; [exact H1|exact H2].
Defined.

End eviction.
